(** * Material color utilities: the colour-space engine of both package trees

    A shallow embedding of
      - [material_color_utilities/utils/math_utils.py],
        [material_color_utilities/utils/color_utils.py],
        [material_color_utilities/utils/string_utils.py],
        [material_color_utilities/hct/cam16.py],
        [material_color_utilities/blend/blend.py]   (the snake_case tree), and
      - [material_color_utilities_python/utils/math_utils.py],
        [material_color_utilities_python/utils/color_utils.py]
                                                    (the camelCase tree).

    Number model.  Python [int] is [Z] (unbounded, as in Python).  Python
    [float] is idealised as a real number [R]: the rounding error of binary64
    arithmetic, infinities and NaN are not modelled, every other step of the
    source is.  Exceptions of the partial float operations (a zero divisor, a
    negative square root, ...) are kept, in the result type [py].  A Python
    [str] is a [string], one [ascii] per code point, which covers the code
    points below 256.

    Numba.  Most functions of the two [utils] directories,
    [Cam16.from_int_in_viewing_conditions] and [Blend.rotation_direction]
    carry numba's [@njit] decorator.  The definitions embed the function
    bodies as Python evaluates them.  The decorator changes two things, and
    the statements below keep to where the definitions and the decorated
    functions agree:
      - A decorated function receives and computes its integers as 64-bit
        signed integers: an [int] argument beyond them is refused with
        OverflowError, a shift by 64 or more and the [round] of a float
        beyond them do not give the values they have on [Z].  The
        definitions on [Z] are exact while the integer arguments and the
        rounded values lie in [int64] (defined with the notions below) and
        the shift counts are below 64.  The theorems on decorated integer
        functions carry these bounds as hypotheses.
      - Numba compiles a decorated function at its first call and refuses
        some of them with a TypingError, on every call: the snake_case
        [xyz_from_argb] (it hands a Python list to [np.dot], through
        [matrix_multiply]) and with it [lstar_from_argb]; the snake_case
        [lab_from_argb] ([np.array] of a module-level array);
        [Cam16.from_int_in_viewing_conditions] (it calls the undecorated
        [signum] and builds a [Cam16] object) and with it [Cam16.from_int]
        and [Blend.cam16_ucs]; the camelCase [argbFromXyz] (it calls the
        undecorated [delinearized] of its tree) and with it [argbFromLab]
        and [argbFromLstar].  For the snake_case functions of this list the
        definitions give what the body computes with the compilation
        switched off ([NUMBA_DISABLE_JIT]); only the statements on the
        defects of these bodies (C1 to C4) are about them.  The three
        camelCase functions of the list are not embedded. *)

From Stdlib Require Import Ascii String HexadecimalString.
From Stdlib Require Import ZArith Reals Lra Lia Psatz List Bool.
Import ListNotations.
Local Open Scope R_scope.

(** ** Python and NumPy primitives the sources call *)

(** [round(x)] on a float: the nearest integer, ties to the even one.  In a
    decorated function the result is a 64-bit integer; the definition is
    exact while the rounded value lies in [int64]. *)
Definition py_round (x : R) : Z :=
  let f := Zfloor x in
  let d := x - IZR f in
  if Rlt_dec d (1 / 2) then f
  else if Rlt_dec (1 / 2) d then (f + 1)%Z
  else if Z.even f then f else (f + 1)%Z.

(** [x % m] on floats, for a positive modulus: the remainder takes the sign
    of the divisor. *)
Definition py_fmod (x m : R) : R := x - m * IZR (Zfloor (x / m)).

(** [np.sign]. *)
Definition np_sign (x : R) : R :=
  if Rlt_dec x 0 then -1 else if Rlt_dec 0 x then 1 else 0.

(** [np.argmin] of a one-dimensional array: the first index of a smallest
    entry. *)
Fixpoint argmin_from (best_i : nat) (best : R) (i : nat) (l : list R) : nat :=
  match l with
  | [] => best_i
  | x :: t =>
      if Rlt_dec x best then argmin_from i x (S i) t
      else argmin_from best_i best (S i) t
  end.

Definition np_argmin (l : list R) : nat :=
  match l with
  | [] => 0%nat
  | x :: t => argmin_from 0 x 1 t
  end.

(** Arrays of the fixed shapes the sources use: [a[0]], [a[1]], [a[2]]. *)
Record array3 (A : Type) : Type := Arr3 { at0 : A; at1 : A; at2 : A }.
Arguments Arr3 {A} _ _ _.
Arguments at0 {A} _.
Arguments at1 {A} _.
Arguments at2 {A} _.

Definition vec3 : Type := array3 R.
Definition mat3 : Type := array3 vec3.

(** An elementwise operation on an array, as NumPy broadcasts it. *)
Definition array3_map {A B : Type} (f : A -> B) (a : array3 A) : array3 B :=
  Arr3 (f (at0 a)) (f (at1 a)) (f (at2 a)).

(** [np.dot(a, b)] for a one-dimensional [a] and a two-dimensional [b]: the
    sum product over the axis of [a] and the first axis of [b],
    [dot(a, b)[j] = sum_i a[i] * b[i][j]]. *)
Definition np_dot_vec_mat (a : vec3) (b : mat3) : vec3 :=
  Arr3 (at0 a * at0 (at0 b) + at1 a * at0 (at1 b) + at2 a * at0 (at2 b))
       (at0 a * at1 (at0 b) + at1 a * at1 (at1 b) + at2 a * at1 (at2 b))
       (at0 a * at2 (at0 b) + at1 a * at2 (at1 b) + at2 a * at2 (at2 b)).

(** [np.dot(a, b)] for a two-dimensional [a] and a one-dimensional [b]:
    [dot(a, b)[i] = sum_j a[i][j] * b[j]]. *)
Definition np_dot_mat_vec (a : mat3) (b : vec3) : vec3 :=
  Arr3 (at0 (at0 a) * at0 b + at1 (at0 a) * at1 b + at2 (at0 a) * at2 b)
       (at0 (at1 a) * at0 b + at1 (at1 a) * at1 b + at2 (at1 a) * at2 b)
       (at0 (at2 a) * at0 b + at1 (at2 a) * at1 b + at2 (at2 a) * at2 b).

(** ** Exceptions *)

Inductive exn : Type :=
| ZeroDivisionError   (* a float division or a power of zero *)
| ValueError          (* math domain error *)
| ComplexResult.      (* the builtin [pow] left the reals: the source goes on
                         with a complex number, which this model does not
                         follow *)

Inductive py (A : Type) : Type :=
| Ok (a : A)
| Raise (e : exn).
Arguments Ok {A} a.
Arguments Raise {A} e.

Definition bind {A B : Type} (m : py A) (k : A -> py B) : py B :=
  match m with
  | Ok a => k a
  | Raise e => Raise e
  end.

Notation "x <- m ;; k" := (bind m (fun x => k))
  (at level 61, m at next level, right associativity).

(** [x / y] on floats. *)
Definition py_div (x y : R) : py R :=
  if Req_dec_T y 0 then Raise ZeroDivisionError else Ok (x / y).

(** [math.sqrt]. *)
Definition math_sqrt (x : R) : py R :=
  if Rlt_dec x 0 then Raise ValueError else Ok (sqrt x).

(** [math.log]. *)
Definition math_log (x : R) : py R :=
  if Rle_dec x 0 then Raise ValueError else Ok (ln x).

(** Whether a float holds an integer. *)
Definition is_integer (y : R) : bool :=
  if Req_dec_T (IZR (Zfloor y)) y then true else false.

(** The builtin [pow(x, y)] on floats. *)
Definition py_pow (x y : R) : py R :=
  if Rlt_dec 0 x then Ok (Rpower x y)
  else if Req_dec_T x 0 then
    if Rlt_dec y 0 then Raise ZeroDivisionError
    else if Req_dec_T y 0 then Ok 1 else Ok 0
  else if is_integer y then Ok (powerRZ x (Zfloor y))
  else Raise ComplexResult.

(** [math.atan2(y, x)], in (-pi, pi]. *)
Definition math_atan2 (y x : R) : R :=
  if Rlt_dec 0 x then atan (y / x)
  else if Rlt_dec x 0 then
    if Rle_dec 0 y then atan (y / x) + PI else atan (y / x) - PI
  else if Rlt_dec 0 y then PI / 2
  else if Rlt_dec y 0 then - (PI / 2)
  else 0.

(** ** Strings and the integer literals of [int] and of format specs *)

(** [s.replace(c, '')] for a one-character [c]: every occurrence is
    removed. *)
Fixpoint str_remove (c : ascii) (s : string) : string :=
  match s with
  | EmptyString => EmptyString
  | String a t =>
      if Ascii.eqb a c then str_remove c t else String a (str_remove c t)
  end.

(** [s[i:j]] for [0 <= i <= j]; a slice that reaches past the end is cut
    there. *)
Definition str_slice (i j : nat) (s : string) : string :=
  substring i (j - i) s.

(** The value of a character as a digit of base 16. *)
Definition hex_digit_value (c : ascii) : option Z :=
  let n := Z.of_N (N_of_ascii c) in
  if ((48 <=? n) && (n <=? 57))%Z then Some (n - 48)%Z
  else if ((97 <=? n) && (n <=? 102))%Z then Some (n - 87)%Z
  else if ((65 <=? n) && (n <=? 70))%Z then Some (n - 55)%Z
  else None.

(** The white space that [int] skips at both ends of its argument: the ASCII
    characters 9 to 13 and 32, and the two spaces above 127 that a [str] of
    code points below 256 can hold. *)
Definition int_space (c : ascii) : bool :=
  let n := Z.of_N (N_of_ascii c) in
  (((9 <=? n) && (n <=? 13)) || (n =? 32) || (n =? 133) || (n =? 160))%Z.

Fixpoint skip_spaces (s : string) : string :=
  match s with
  | String c t => if int_space c then skip_spaces t else s
  | EmptyString => s
  end.

(** The digits of an integer literal after its first digit: digits, with
    single underscores between them. *)
Fixpoint scan_digits (acc : Z) (after_underscore : bool) (s : string)
  : option (Z * string) :=
  match s with
  | String c t =>
      match hex_digit_value c with
      | Some d => scan_digits (16 * acc + d) false t
      | None =>
          if Ascii.eqb c "_" then
            if after_underscore then None else scan_digits acc true t
          else if after_underscore then None else Some (acc, s)
      end
  | EmptyString => if after_underscore then None else Some (acc, s)
  end.

(** [int(value, 16)]: white space, a sign, the prefix [0x] or [0X] and one
    underscore after it, the digits, white space; [None] stands for the
    [ValueError] of a literal that is not of this form. *)
Definition int_base16 (value : string) : option Z :=
  let s := skip_spaces value in
  let '(sign, s) :=
    match s with
    | String "+" t => (1%Z, t)
    | String "-" t => ((-1)%Z, t)
    | _ => (1%Z, s)
    end in
  let s :=
    match s with
    | String "0" (String x t) =>
        if (Ascii.eqb x "x" || Ascii.eqb x "X")%bool then
          match t with
          | String "_" t' => t'
          | _ => t
          end
        else s
    | _ => s
    end in
  match s with
  | String c t =>
      match hex_digit_value c with
      | Some d =>
          match scan_digits d false t with
          | Some (n, rest) =>
              match skip_spaces rest with
              | EmptyString => Some (sign * n)%Z
              | _ => None
              end
          | None => None
          end
      | None => None
      end
  | EmptyString => None
  end.

(** The zeros that pad a number to a width. *)
Fixpoint zero_padding (n : nat) : string :=
  match n with
  | O => EmptyString
  | S n' => String "0" (zero_padding n')
  end.

(** [f'{n:02x}']: the lower-case hexadecimal digits of [n], after its sign,
    with zeros between the two up to a width of 2. *)
Definition format_02x (n : Z) : string :=
  let digits := NilZero.string_of_uint (N.to_hex_uint (Z.to_N (Z.abs n))) in
  if (n <? 0)%Z then
    String "-" (zero_padding (1 - String.length digits) ++ digits)
  else zero_padding (2 - String.length digits) ++ digits.

(** ** The snake_case tree: [material_color_utilities] *)

Module material_color_utilities.

(** *** [utils/math_utils.py] *)
Module math_utils.

Definition signum (num : R) : R :=
  if Rlt_dec num 0 then -1
  else if Req_dec_T num 0 then 0
  else 1.

Definition lerp (start stop amount : R) : R :=
  (1.0 - amount) * start + amount * stop.

(** The body holds two comparisons and three returns; there is no check of
    [min] against [max]. *)
Definition clamp_int (min max input : Z) : Z :=
  if (input <? min)%Z then min
  else if (input >? max)%Z then max
  else input.


Definition sanitize_degrees_int (degrees : Z) : Z :=
  let degrees := (degrees mod 360)%Z in
  if (degrees <? 0)%Z then (degrees + 360)%Z else degrees.

Definition sanitize_degrees_double (degrees : R) : R :=
  let degrees := py_fmod degrees 360.0 in
  if Rlt_dec degrees 0 then degrees + 360.0 else degrees.

Definition difference_degrees (a b : R) : R :=
  180.0 - Rabs (Rabs (a - b) - 180.0).

(** [return np.dot(row, matrix)]: the row is the first argument.  Decorated:
    numba accepts the call on an array [row] and refuses it on a Python
    list, which is what [xyz_from_argb] hands over. *)
Definition matrix_multiply (row : vec3) (matrix : mat3) : vec3 :=
  np_dot_vec_mat row matrix.

End math_utils.

(** *** [utils/color_utils.py] *)
Module color_utils.
Import math_utils.

Definition SRGB_TO_XYZ : mat3 :=
  Arr3 (Arr3 0.41233895 0.35762064 0.18051042)
       (Arr3 0.2126 0.7152 0.0722)
       (Arr3 0.01932141 0.11916382 0.95034478).

Definition XYZ_TO_SRGB : mat3 :=
  Arr3 (Arr3 3.2413774792388685 (-1.5376652402851851) (-0.49885366846268053))
       (Arr3 (-0.9691452513005321) 1.8758853451067872 0.04156585616912061)
       (Arr3 0.05562093689691305 (-0.20395524564742123) 1.0571799111220335).

Definition WHITE_POINT_D65 : vec3 := Arr3 95.047 100.0 108.883.

(** Decorated: exact for [val] in [int64] and [0 <= n < 64]. *)
Definition rshift (val : Z) (n : Z) : Z :=
  if (val >=? 0)%Z then Z.shiftr val n
  else Z.shiftr (val + 0x100000000) n.

(** Decorated, as are the four accessors and [is_opaque]: exact for
    arguments in [int64]. *)
Definition argb_from_rgb (red green blue : Z) : Z :=
  rshift
    (Z.lor (Z.lor (Z.lor (Z.shiftl 255 24)
                         (Z.shiftl (Z.land red 255) 16))
                  (Z.shiftl (Z.land green 255) 8))
           (Z.land blue 255))
    0.

Definition alpha_from_argb (argb : Z) : Z := Z.land (Z.shiftr argb 24) 255.
Definition red_from_argb (argb : Z) : Z := Z.land (Z.shiftr argb 16) 255.
Definition green_from_argb (argb : Z) : Z := Z.land (Z.shiftr argb 8) 255.
Definition blue_from_argb (argb : Z) : Z := Z.land argb 255.

Definition is_opaque (argb : Z) : bool := (alpha_from_argb argb >=? 255)%Z.

(** The power is taken of a base above [(0.040449936 + 0.055) / 1.055]. *)
Definition linearized (rgbComponent : Z) : R :=
  let normalized := IZR rgbComponent / 255.0 in
  if Rle_dec normalized 0.040449936 then normalized / 12.92 * 100.0
  else Rpower ((normalized + 0.055) / 1.055) 2.4 * 100.0.

(** The power is taken of a base above [0.0031308].  Decorated: exact while
    [round(delinearized * 255.0)] lies in [int64]. *)
Definition delinearized (rgbComponent : R) : Z :=
  let normalized := rgbComponent / 100.0 in
  let delinearized :=
    if Rle_dec normalized 0.0031308 then normalized * 12.92
    else 1.055 * Rpower normalized (1.0 / 2.4) - 0.055 in
  clamp_int 0 255 (py_round (delinearized * 255.0)).

Definition argb_from_xyz (x y z : R) : Z :=
  let matrix := XYZ_TO_SRGB in
  let linearr := at0 (at0 matrix) * x + at1 (at0 matrix) * y + at2 (at0 matrix) * z in
  let linearg := at0 (at1 matrix) * x + at1 (at1 matrix) * y + at2 (at1 matrix) * z in
  let linearb := at0 (at2 matrix) * x + at1 (at2 matrix) * y + at2 (at2 matrix) * z in
  let r := delinearized linearr in
  let g := delinearized linearg in
  let b := delinearized linearb in
  argb_from_rgb r g b.

(** The body; numba refuses the decorated function (a list goes to
    [np.dot]). *)
Definition xyz_from_argb (argb : Z) : vec3 :=
  let r := linearized (red_from_argb argb) in
  let g := linearized (green_from_argb argb) in
  let b := linearized (blue_from_argb argb) in
  matrix_multiply (Arr3 r g b) SRGB_TO_XYZ.

Definition lab_invf (ft : R) : R :=
  let e := 216.0 / 24389.0 in
  let kappa := 24389.0 / 27.0 in
  let ft3 := ft * ft * ft in
  if Rlt_dec e ft3 then ft3 else (116 * ft - 16) / kappa.

Definition argd_from_lab (l a b : R) : Z :=
  let white_point := WHITE_POINT_D65 in
  let fy := (l + 16.0) / 116.0 in
  let fx := a / 500.0 + fy in
  let fz := fy - b / 200.0 in
  let xnormalized := lab_invf fx in
  let ynormalized := lab_invf fy in
  let znormalized := lab_invf fz in
  let x := xnormalized * at0 white_point in
  let y := ynormalized * at1 white_point in
  let z := znormalized * at2 white_point in
  argb_from_xyz x y z.

(** [np.where(t > e, np.power(t, 1.0 / 3.0), (kappa * t + 16) / 116)] on one
    element. *)
Definition labf (t : R) : R :=
  let e := 216.0 / 24389.0 in
  let kappa := 24389.0 / 27.0 in
  if Rlt_dec e t then Rpower t (1.0 / 3.0) else (kappa * t + 16) / 116.

(** Here the matrix is the first argument of [np.dot].  The body; numba
    refuses the decorated function ([np.array] of the module-level
    matrix). *)
Definition lab_from_argb (argb : Z) : vec3 :=
  let linearr_gb := Arr3 (linearized (red_from_argb argb))
                         (linearized (green_from_argb argb))
                         (linearized (blue_from_argb argb)) in
  let matrix := SRGB_TO_XYZ in
  let xyz := np_dot_mat_vec matrix linearr_gb in
  let white_point := WHITE_POINT_D65 in
  let normalized_xyz := Arr3 (at0 xyz / at0 white_point)
                             (at1 xyz / at1 white_point)
                             (at2 xyz / at2 white_point) in
  let fxyz := array3_map labf normalized_xyz in
  let l := 116.0 * at1 fxyz - 16 in
  let a := 500.0 * (at0 fxyz - at1 fxyz) in
  let b := 200.0 * (at1 fxyz - at2 fxyz) in
  Arr3 l a b.

Definition argb_From_lstar (lstar : R) : Z :=
  let fy := (lstar + 16.0) / 116.0 in
  let fz := fy in
  let fx := fy in
  let kappa := 24389.0 / 27.0 in
  let epsilon := 216.0 / 24389.0 in
  let l_exceeds_epsilon_kappa := Rlt_dec 8.0 lstar in
  let y := if l_exceeds_epsilon_kappa then fy * fy * fy else lstar / kappa in
  let cube_exceed_epsilon := Rlt_dec epsilon (fy * fy * fy) in
  let x := if cube_exceed_epsilon then fx * fx * fx else lstar / kappa in
  let z := if cube_exceed_epsilon then fz * fz * fz else lstar / kappa in
  let white_point := WHITE_POINT_D65 in
  argb_from_xyz (x * at0 white_point) (y * at1 white_point) (z * at2 white_point).

(** The cube root is taken of a [y] above [216 / 24389].  The body; the
    decorated function is refused with [xyz_from_argb]. *)
Definition lstar_from_argb (argb : Z) : R :=
  let y := at1 (xyz_from_argb argb) / 100.0 in
  let e := 216.0 / 24389.0 in
  if Rle_dec y e then 24389.0 / 27.0 * y
  else
    let y_intermediate := Rpower y (1.0 / 3.0) in
    116.0 * y_intermediate - 16.0.

(** The power is taken of a base above [24 / 116]. *)
Definition y_from_lstar (lstar : R) : R :=
  if Rlt_dec 8 lstar then Rpower ((lstar + 16.0) / 116.0) 3.0 * 100.0
  else lstar / (24389.0 / 27.0) * 100.0.

End color_utils.

(** *** [utils/string_utils.py] *)
Module string_utils.
Import color_utils.

(** What the functions of this file raise. *)
Inductive exception : Type :=
| Exception (message : string)      (* [raise Exception(...)] *)
| IntValueError (literal : string). (* [int]: invalid literal *)

Inductive result (A : Type) : Type :=
| Returns (a : A)
| Raises (e : exception).
Arguments Returns {A} a.
Arguments Raises {A} e.

Definition and_then {A B : Type} (m : result A) (k : A -> result B) : result B :=
  match m with
  | Returns a => k a
  | Raises e => Raises e
  end.

Definition hex_from_argb (argb : Z) : string :=
  let r := red_from_argb argb in
  let g := green_from_argb argb in
  let b := blue_from_argb argb in
  String "#" (format_02x r ++ format_02x g ++ format_02x b).

Definition parse_int_hex (value : string) : result Z :=
  match int_base16 value with
  | Some n => Returns n
  | None => Raises (IntValueError value)
  end.

(** The three channels are parsed in the order [r], [g], [b]; the first two
    characters of the eight-character form are never read. *)
Definition argb_from_hex (hex : string) : result Z :=
  let hex := str_remove "#" hex in
  let isThree := Nat.eqb (String.length hex) 3 in
  let isSix := Nat.eqb (String.length hex) 6 in
  let isEight := Nat.eqb (String.length hex) 8 in
  if (negb isThree && negb isSix && negb isEight)%bool then
    Raises (Exception ("unexpected hex " ++ hex))
  else
    and_then
      (if isThree then
         and_then (parse_int_hex (str_slice 0 1 hex ++ str_slice 0 1 hex)) (fun r =>
         and_then (parse_int_hex (str_slice 1 2 hex ++ str_slice 1 2 hex)) (fun g =>
         and_then (parse_int_hex (str_slice 2 3 hex ++ str_slice 2 3 hex)) (fun b =>
         Returns (r, g, b))))
       else if isSix then
         and_then (parse_int_hex (str_slice 0 2 hex)) (fun r =>
         and_then (parse_int_hex (str_slice 2 4 hex)) (fun g =>
         and_then (parse_int_hex (str_slice 4 6 hex)) (fun b =>
         Returns (r, g, b))))
       else if isEight then
         and_then (parse_int_hex (str_slice 2 4 hex)) (fun r =>
         and_then (parse_int_hex (str_slice 4 6 hex)) (fun g =>
         and_then (parse_int_hex (str_slice 6 8 hex)) (fun b =>
         Returns (r, g, b))))
       else Returns (0%Z, 0%Z, 0%Z))
      (fun '(r, g, b) =>
         Returns
           (rshift
              (Z.lor (Z.lor (Z.lor (Z.shiftl 255 24)
                                   (Z.shiftl (Z.land r 0x0ff) 16))
                            (Z.shiftl (Z.land g 0x0ff) 8))
                     (Z.land b 0x0ff))
              0)).

End string_utils.

(** *** [hct/viewing_conditions.py] *)

Module ViewingConditions.

(** Modelled from the spec: [hct/viewing_conditions.py] is not among the
    sources.  The spec describes a [ViewingConditions] value as an immutable
    bundle of [fl], [fLRoot], [n], [nbb], [ncb], [c], [nc], [z], [aw] and the
    three-component [rgbD]; these are the fields [cam16.py] reads.  The
    process-wide [ViewingConditions.DEFAULT] is a parameter of the functions
    that use it. *)
Record t : Type := make {
  n : R;
  aw : R;
  nbb : R;
  ncb : R;
  c : R;
  nc : R;
  rgbD : vec3;
  fl : R;
  fLRoot : R;
  z : R
}.
End ViewingConditions.

(** *** [hct/cam16.py] *)
Module cam16.
Import math_utils color_utils.

Record Cam16 : Type := mkCam16 {
  hue : R;
  chroma : R;
  j : R;
  q : R;
  m : R;
  s : R;
  jstar : R;
  astar : R;
  bstar : R
}.

Definition distance (self other : Cam16) : py R :=
  let dJ := jstar self - jstar other in
  let dA := astar self - astar other in
  let dB := bstar self - bstar other in
  dEPrime <- math_sqrt (dJ * dJ + dA * dA + dB * dB) ;;
  p <- py_pow dEPrime 0.63 ;;
  Ok (1.41 * p).

(** The body; numba refuses the decorated function (it calls the undecorated
    [signum] and builds a [Cam16] object), so [from_int] and
    [Blend.cam16_ucs] end in that TypingError too. *)
Definition from_int_in_viewing_conditions
    (argb : Z) (viewing_conditions : ViewingConditions.t) : py Cam16 :=
  let vc := viewing_conditions in
  let red := Z.shiftr (Z.land argb 0x00ff0000) 16 in
  let green := Z.shiftr (Z.land argb 0x0000ff00) 8 in
  let blue := Z.land argb 0x000000ff in
  let redL := linearized red in
  let greenL := linearized green in
  let blueL := linearized blue in
  let x := 0.41233895 * redL + 0.35762064 * greenL + 0.18051042 * blueL in
  let y := 0.2126 * redL + 0.7152 * greenL + 0.0722 * blueL in
  let z := 0.01932141 * redL + 0.11916382 * greenL + 0.95034478 * blueL in
  let rC := 0.401288 * x + 0.650173 * y - 0.051461 * z in
  let gC := -0.250268 * x + 1.204414 * y + 0.045854 * z in
  let bC := -0.002079 * x + 0.048952 * y + 0.953127 * z in
  let rD := at0 (ViewingConditions.rgbD vc) * rC in
  let gD := at1 (ViewingConditions.rgbD vc) * gC in
  let bD := at2 (ViewingConditions.rgbD vc) * bC in
  rAF <- py_pow ((ViewingConditions.fl vc * Rabs rD) / 100.0) 0.42 ;;
  gAF <- py_pow ((ViewingConditions.fl vc * Rabs gD) / 100.0) 0.42 ;;
  bAF <- py_pow ((ViewingConditions.fl vc * Rabs bD) / 100.0) 0.42 ;;
  rA <- py_div (signum rD * 400.0 * rAF) (rAF + 27.13) ;;
  gA <- py_div (signum gD * 400.0 * gAF) (gAF + 27.13) ;;
  bA <- py_div (signum bD * 400.0 * bAF) (bAF + 27.13) ;;
  let a := (11.0 * rA + -12.0 * gA + bA) / 11.0 in
  let b := (rA + gA - 2.0 * bA) / 9.0 in
  let u := (20.0 * rA + 20.0 * gA + 21.0 * bA) / 20.0 in
  let p2 := (40.0 * rA + 20.0 * gA + bA) / 20.0 in
  let atan2 := math_atan2 b a in
  let atanDegrees := (atan2 * 180.0) / PI in
  let hue :=
    if Rlt_dec atanDegrees 0 then atanDegrees + 360.0
    else if Rle_dec 360 atanDegrees then atanDegrees - 360.0
    else atanDegrees in
  let hueRadians := (hue * PI) / 180.0 in
  let ac := p2 * ViewingConditions.nbb vc in
  ratio <- py_div ac (ViewingConditions.aw vc) ;;
  jpow <- py_pow ratio (ViewingConditions.c vc * ViewingConditions.z vc) ;;
  let j := 100.0 * jpow in
  q0 <- py_div 4.0 (ViewingConditions.c vc) ;;
  q1 <- math_sqrt (j / 100.0) ;;
  let q := q0 * q1 * (ViewingConditions.aw vc + 4.0) * ViewingConditions.fLRoot vc in
  let huePrime := if Rlt_dec hue 20.14 then hue + 360 else hue in
  let eHue := 0.25 * (cos ((huePrime * PI) / 180.0 + 2.0) + 3.8) in
  let p1 := (50000.0 / 13.0) * eHue * ViewingConditions.nc vc * ViewingConditions.ncb vc in
  t0 <- math_sqrt (a * a + b * b) ;;
  t <- py_div (p1 * t0) (u + 0.305) ;;
  alpha0 <- py_pow t 0.9 ;;
  alpha1 <- py_pow 0.29 (ViewingConditions.n vc) ;;
  alpha2 <- py_pow (1.64 - alpha1) 0.73 ;;
  let alpha := alpha0 * alpha2 in
  c0 <- math_sqrt (j / 100.0) ;;
  let c := alpha * c0 in
  let m := c * ViewingConditions.fLRoot vc in
  s0 <- py_div (alpha * ViewingConditions.c vc) (ViewingConditions.aw vc + 4.0) ;;
  s1 <- math_sqrt s0 ;;
  let s := 50.0 * s1 in
  jstar <- py_div ((1.0 + 100.0 * 0.007) * j) (1.0 + 0.007 * j) ;;
  mstar0 <- math_log (1.0 + 0.0228 * m) ;;
  let mstar := (1.0 / 0.0228) * mstar0 in
  let astar := mstar * cos hueRadians in
  let bstar := mstar * sin hueRadians in
  Ok (mkCam16 hue c j q m s jstar astar bstar).

Definition fromJch_in_viewing_conditions
    (j c h : R) (viewing_conditions : ViewingConditions.t) : py Cam16 :=
  let vc := viewing_conditions in
  q0 <- py_div 4.0 (ViewingConditions.c vc) ;;
  q1 <- math_sqrt (j / 100.0) ;;
  let q := q0 * q1 * (ViewingConditions.aw vc + 4.0) * ViewingConditions.fLRoot vc in
  let m := c * ViewingConditions.fLRoot vc in
  alpha0 <- math_sqrt (j / 100.0) ;;
  alpha <- py_div c alpha0 ;;
  s0 <- py_div (alpha * ViewingConditions.c vc) (ViewingConditions.aw vc + 4.0) ;;
  s1 <- math_sqrt s0 ;;
  let s := 50.0 * s1 in
  let hueRadians := (h * PI) / 180.0 in
  jstar <- py_div ((1.0 + 100.0 * 0.007) * j) (1.0 + 0.007 * j) ;;
  mstar0 <- math_log (1.0 + 0.0228 * m) ;;
  let mstar := (1.0 / 0.0228) * mstar0 in
  let astar := mstar * cos hueRadians in
  let bstar := mstar * sin hueRadians in
  Ok (mkCam16 h c j q m s jstar astar bstar).

Definition fromUcs_in_viewing_conditions
    (jstar astar bstar : R) (viewing_conditions : ViewingConditions.t) : py Cam16 :=
  let a := astar in
  let b := bstar in
  m <- math_sqrt (a * a + b * b) ;;
  let M := (exp (m * 0.0228) - 1.0) / 0.0228 in
  c <- py_div M (ViewingConditions.fLRoot viewing_conditions) ;;
  let h := math_atan2 b a * (180.0 / PI) in
  let h := if Rlt_dec h 0.0 then h + 360.0 else h in
  j <- py_div jstar (1 - (jstar - 100) * 0.007) ;;
  fromJch_in_viewing_conditions j c h viewing_conditions.

Definition viewed (self : Cam16) (viewing_conditions : ViewingConditions.t) : py Z :=
  let vc := viewing_conditions in
  alpha <-
    (if Req_dec_T (chroma self) 0.0 then Ok 0.0
     else if Req_dec_T (j self) 0.0 then Ok 0.0
     else (r <- math_sqrt (j self / 100.0) ;; py_div (chroma self) r)) ;;
  t0 <- py_pow 0.29 (ViewingConditions.n vc) ;;
  t1 <- py_pow (1.64 - t0) 0.73 ;;
  t2 <- py_div alpha t1 ;;
  t <- py_pow t2 (1.0 / 0.9) ;;
  let hRad := (hue self * PI) / 180.0 in
  let eHue := 0.25 * (cos (hRad + 2.0) + 3.8) in
  e0 <- py_div 1.0 (ViewingConditions.c vc) ;;
  e1 <- py_div e0 (ViewingConditions.z vc) ;;
  ac0 <- py_pow (j self / 100.0) e1 ;;
  let ac := ViewingConditions.aw vc * ac0 in
  let p1 := eHue * (50000.0 / 13.0) * ViewingConditions.nc vc * ViewingConditions.ncb vc in
  p2 <- py_div ac (ViewingConditions.nbb vc) ;;
  let hSin := sin hRad in
  let hCos := cos hRad in
  gamma <- py_div (23.0 * (p2 + 0.305) * t)
                  (23.0 * p1 + 11.0 * t * hCos + 108.0 * t * hSin) ;;
  let a := gamma * hCos in
  let b := gamma * hSin in
  let rA := (460.0 * p2 + 451.0 * a + 288.0 * b) / 1403.0 in
  let gA := (460.0 * p2 - 891.0 * a - 261.0 * b) / 1403.0 in
  let bA := (460.0 * p2 - 220.0 * a - 6300.0 * b) / 1403.0 in
  rCBase0 <- py_div (27.13 * Rabs rA) (400.0 - Rabs rA) ;;
  let rCBase := Rmax 0 rCBase0 in
  rC0 <- py_div 100.0 (ViewingConditions.fl vc) ;;
  rC1 <- py_pow rCBase (1.0 / 0.42) ;;
  let rC := signum rA * rC0 * rC1 in
  gCBase0 <- py_div (27.13 * Rabs gA) (400.0 - Rabs gA) ;;
  let gCBase := Rmax 0 gCBase0 in
  gC0 <- py_div 100.0 (ViewingConditions.fl vc) ;;
  gC1 <- py_pow gCBase (1.0 / 0.42) ;;
  let gC := signum gA * gC0 * gC1 in
  bCBase0 <- py_div (27.13 * Rabs bA) (400.0 - Rabs bA) ;;
  let bCBase := Rmax 0 bCBase0 in
  bC0 <- py_div 100.0 (ViewingConditions.fl vc) ;;
  bC1 <- py_pow bCBase (1.0 / 0.42) ;;
  let bC := signum bA * bC0 * bC1 in
  rF <- py_div rC (at0 (ViewingConditions.rgbD vc)) ;;
  gF <- py_div gC (at1 (ViewingConditions.rgbD vc)) ;;
  bF <- py_div bC (at2 (ViewingConditions.rgbD vc)) ;;
  let x := 1.86206786 * rF - 1.01125463 * gF + 0.14918677 * bF in
  let y := 0.38752654 * rF + 0.62144744 * gF - 0.00897398 * bF in
  let z := -0.01584150 * rF - 0.03412294 * gF + 1.04996444 * bF in
  Ok (argb_from_xyz x y z).

Section Default.
Variable DEFAULT : ViewingConditions.t.

Definition from_int (argb : Z) : py Cam16 :=
  from_int_in_viewing_conditions argb DEFAULT.

Definition fromJch (j c h : R) : py Cam16 :=
  fromJch_in_viewing_conditions j c h DEFAULT.

Definition from_ucs (jstar astar bstar : R) : py Cam16 :=
  fromUcs_in_viewing_conditions jstar astar bstar DEFAULT.

Definition to_int (self : Cam16) : py Z :=
  viewed self DEFAULT.

End Default.

End cam16.

(** *** [hct/hct.py] *)

Module Hct.

(** Modelled from the spec: [hct/hct.py] is not among the sources.  What
    [blend.py] uses of an [Hct] value is kept as an interface: the attributes
    [hue], [chroma] and [tone], the constructors [Hct.from_int] and
    [Hct.from_hct] (the spec's gamut-mapping search) and the method
    [to_int]. *)
Record api : Type := Api {
  t : Type;
  hue : t -> R;
  chroma : t -> R;
  tone : t -> R;
  from_int : Z -> py t;
  from_hct : R -> R -> R -> py t;
  to_int : t -> py Z
}.
End Hct.

(** *** [blend/blend.py] *)
Module Blend.
Import math_utils color_utils.

Definition rotation_direction (from_v to : R) : R :=
  let values := [to - from_v; to - from_v + 360.0; to - from_v - 360.0] in
  let abs_values := map Rabs values in
  let min_index := np_argmin abs_values in
  np_sign (nth min_index values 0).

Section WithHct.
Variable H : Hct.api.

(** The hue that [harmonize] asks [Hct.from_hct] for. *)
Definition harmonize_hue (from_hue to_hue : R) : R :=
  let difference_degrees_v := difference_degrees from_hue to_hue in
  let rotation_degrees := Rmin (difference_degrees_v * 0.5) 15.0 in
  sanitize_degrees_double
    (from_hue + rotation_degrees * rotation_direction from_hue to_hue).

Definition harmonize (designColor sourceColor : Z) : py Z :=
  from_hct <- Hct.from_int H designColor ;;
  to_hct <- Hct.from_int H sourceColor ;;
  let output_hue := harmonize_hue (Hct.hue H from_hct) (Hct.hue H to_hct) in
  r <- Hct.from_hct H output_hue (Hct.chroma H from_hct) (Hct.tone H from_hct) ;;
  Hct.to_int H r.

End WithHct.

(** The three coordinates that [cam16_ucs] hands to [Cam16.from_ucs]:
    [toa] is assigned twice, first [to_cam.astar], then [to_cam.bstar], and
    no [tob] is ever read. *)
Definition cam16_ucs_coordinates (from_cam to_cam : cam16.Cam16) (amount : R)
  : R * R * R :=
  let fromj := cam16.jstar from_cam in
  let froma := cam16.astar from_cam in
  let fromb := cam16.bstar from_cam in
  let toj := cam16.jstar to_cam in
  let toa := cam16.astar to_cam in
  let toa := cam16.bstar to_cam in
  let jstar := fromj + (toj - fromj) * amount in
  let astar := froma + (toa - froma) * amount in
  let bstar := fromb + (toa - fromb) * amount in
  (jstar, astar, bstar).

Definition cam16_ucs (DEFAULT : ViewingConditions.t) (from_v to : Z) (amount : R)
  : py Z :=
  from_cam <- cam16.from_int DEFAULT from_v ;;
  to_cam <- cam16.from_int DEFAULT to ;;
  let '(jstar, astar, bstar) := cam16_ucs_coordinates from_cam to_cam amount in
  r <- cam16.from_ucs DEFAULT jstar astar bstar ;;
  cam16.to_int DEFAULT r.

End Blend.

End material_color_utilities.

(** ** The camelCase tree: [material_color_utilities_python] *)

Module material_color_utilities_python.

(** *** [utils/math_utils.py] *)
Module math_utils.

Definition signum (num : R) : R :=
  if Rlt_dec num 0 then -1
  else if Req_dec_T num 0 then 0
  else 1.

Definition lerp (start stop amount : R) : R :=
  (1.0 - amount) * start + amount * stop.

Definition clampInt (min max input : Z) : Z :=
  if (input <? min)%Z then min
  else if (input >? max)%Z then max
  else input.


Definition sanitizeDegreesDouble (degrees : R) : R :=
  let degrees := py_fmod degrees 360.0 in
  if Rlt_dec degrees 0 then degrees + 360.0 else degrees.

Definition sanitizeDegreesInt (degrees : Z) : Z :=
  let degrees := (degrees mod 360)%Z in
  if (degrees <? 0)%Z then (degrees + 360)%Z else degrees.

Definition differenceDegrees (a b : R) : R :=
  180.0 - Rabs (Rabs (a - b) - 180.0).

(** Each entry pairs the row with one row of the matrix. *)
Definition matrixMultiply (row : vec3) (matrix : mat3) : vec3 :=
  let a := at0 row * at0 (at0 matrix) + at1 row * at1 (at0 matrix) + at2 row * at2 (at0 matrix) in
  let b := at0 row * at0 (at1 matrix) + at1 row * at1 (at1 matrix) + at2 row * at2 (at1 matrix) in
  let c := at0 row * at0 (at2 matrix) + at1 row * at1 (at2 matrix) + at2 row * at2 (at2 matrix) in
  Arr3 a b c.

End math_utils.

(** *** [utils/color_utils.py] *)
Module color_utils.
Import math_utils.

Definition SRGB_TO_XYZ : mat3 :=
  Arr3 (Arr3 0.41233895 0.35762064 0.18051042)
       (Arr3 0.2126 0.7152 0.0722)
       (Arr3 0.01932141 0.11916382 0.95034478).

Definition XYZ_TO_SRGB : mat3 :=
  Arr3 (Arr3 3.2413774792388685 (-1.5376652402851851) (-0.49885366846268053))
       (Arr3 (-0.9691452513005321) 1.8758853451067872 0.04156585616912061)
       (Arr3 0.05562093689691305 (-0.20395524564742123) 1.0571799111220335).

Definition WHITE_POINT_D65 : vec3 := Arr3 95.047 100.0 108.883.

(** Decorated, as are [argbFromRgb], the accessors and [isOpaque]: exact
    for arguments in [int64] and shift counts below 64. *)
Definition rshift (val : Z) (n : Z) : Z :=
  if (val >=? 0)%Z then Z.shiftr val n
  else Z.shiftr (val + 0x100000000) n.

Definition argbFromRgb (red green blue : Z) : Z :=
  rshift
    (Z.lor (Z.lor (Z.lor (Z.shiftl 255 24)
                         (Z.shiftl (Z.land red 255) 16))
                  (Z.shiftl (Z.land green 255) 8))
           (Z.land blue 255))
    0.

Definition alphaFromArgb (argb : Z) : Z := Z.land (Z.shiftr argb 24) 255.
Definition redFromArgb (argb : Z) : Z := Z.land (Z.shiftr argb 16) 255.
Definition greenFromArgb (argb : Z) : Z := Z.land (Z.shiftr argb 8) 255.
Definition blueFromArgb (argb : Z) : Z := Z.land argb 255.

Definition isOpaque (argb : Z) : bool := (alphaFromArgb argb >=? 255)%Z.

Definition linearized (rgbComponent : Z) : R :=
  let normalized := IZR rgbComponent / 255.0 in
  if Rle_dec normalized 0.040449936 then normalized / 12.92 * 100.0
  else Rpower ((normalized + 0.055) / 1.055) 2.4 * 100.0.

(** Not decorated in this tree: [round] is Python's, and the decorated
    [clampInt] takes its result while it lies in [int64]. *)
Definition delinearized (rgbComponent : R) : Z :=
  let normalized := rgbComponent / 100.0 in
  let delinearized :=
    if Rle_dec normalized 0.0031308 then normalized * 12.92
    else 1.055 * Rpower normalized (1.0 / 2.4) - 0.055 in
  clampInt 0 255 (py_round (delinearized * 255.0)).

Definition xyzFromArgb (argb : Z) : vec3 :=
  let r := linearized (redFromArgb argb) in
  let g := linearized (greenFromArgb argb) in
  let b := linearized (blueFromArgb argb) in
  matrixMultiply (Arr3 r g b) SRGB_TO_XYZ.

Definition lstarFromArgb (argb : Z) : R :=
  let y := at1 (xyzFromArgb argb) / 100.0 in
  let e := 216.0 / 24389.0 in
  if Rle_dec y e then 24389.0 / 27.0 * y
  else
    let yIntermediate := Rpower y (1.0 / 3.0) in
    116.0 * yIntermediate - 16.0.

Definition labInvf (ft : R) : R :=
  let e := 216.0 / 24389.0 in
  let kappa := 24389.0 / 27.0 in
  let ft3 := ft * ft * ft in
  if Rlt_dec e ft3 then ft3 else (116 * ft - 16) / kappa.

(** The power is taken of a [t] above [216 / 24389]. *)
Definition labF (t : R) : R :=
  let e := 216.0 / 24389.0 in
  let kappa := 24389.0 / 27.0 in
  if Rlt_dec e t then Rpower t (1.0 / 3.0) else (kappa * t + 16) / 116.

Definition labFromArgb (argb : Z) : vec3 :=
  let linearR := linearized (redFromArgb argb) in
  let linearG := linearized (greenFromArgb argb) in
  let linearB := linearized (blueFromArgb argb) in
  let matrix := SRGB_TO_XYZ in
  let x := at0 (at0 matrix) * linearR + at1 (at0 matrix) * linearG + at2 (at0 matrix) * linearB in
  let y := at0 (at1 matrix) * linearR + at1 (at1 matrix) * linearG + at2 (at1 matrix) * linearB in
  let z := at0 (at2 matrix) * linearR + at1 (at2 matrix) * linearG + at2 (at2 matrix) * linearB in
  let whitePoint := WHITE_POINT_D65 in
  let xNormalized := x / at0 whitePoint in
  let yNormalized := y / at1 whitePoint in
  let zNormalized := z / at2 whitePoint in
  let fx := labF xNormalized in
  let fy := labF yNormalized in
  let fz := labF zNormalized in
  let l := 116.0 * fy - 16 in
  let a := 500.0 * (fx - fy) in
  let b := 200.0 * (fy - fz) in
  Arr3 l a b.

(** The power is taken of a base above [24 / 116]. *)
Definition yFromLstar (lstar : R) : R :=
  if Rlt_dec 8 lstar then Rpower ((lstar + 16.0) / 116.0) 3.0 * 100.0
  else lstar / (24389.0 / 27.0) * 100.0.
End color_utils.

End material_color_utilities_python.

(** * Properties of the two trees *)

Module Snake := material_color_utilities.
Module Camel := material_color_utilities_python.

(** ** Notions the statements use *)

(** The transpose of a 3x3 matrix. *)
Definition transpose (m : mat3) : mat3 :=
  Arr3 (Arr3 (at0 (at0 m)) (at0 (at1 m)) (at0 (at2 m)))
       (Arr3 (at1 (at0 m)) (at1 (at1 m)) (at1 (at2 m)))
       (Arr3 (at2 (at0 m)) (at2 (at1 m)) (at2 (at2 m))).

(** An ARGB integer that is exactly four bytes, the alpha byte [255]. *)
Definition opaque_bytes (argb : Z) : Prop :=
  Snake.color_utils.alpha_from_argb argb = 255%Z /\
  (0 <= Snake.color_utils.red_from_argb argb <= 255)%Z /\
  (0 <= Snake.color_utils.green_from_argb argb <= 255)%Z /\
  (0 <= Snake.color_utils.blue_from_argb argb <= 255)%Z /\
  argb = (16777216 * Snake.color_utils.alpha_from_argb argb
          + 65536 * Snake.color_utils.red_from_argb argb
          + 256 * Snake.color_utils.green_from_argb argb
          + Snake.color_utils.blue_from_argb argb)%Z.

(** The integers of 64 bits, which the decorated functions compute with. *)
Definition int64 (x : Z) : Prop := (- 2 ^ 63 <= x < 2 ^ 63)%Z.

(** The float that [delinearized] hands to [round]: the transfer value
    times 255. *)
Definition delinearized_scaled (rgbComponent : R) : R :=
  let normalized := rgbComponent / 100.0 in
  (if Rle_dec normalized 0.0031308 then normalized * 12.92
   else 1.055 * Rpower normalized (1.0 / 2.4) - 0.055) * 255.0.

(** [delinearize] as the spec words it: the inverse piecewise transfer
    function (threshold 0.0031308 in the linear domain), rounded to the
    nearest integer and clamped to [[0, 255]]. *)
Definition delinearize_spec (linear : R) : Z :=
  let n := linear / 100 in
  let srgb := if Rle_dec n 0.0031308 then 12.92 * n
              else 1.055 * Rpower n (1 / 2.4) - 0.055 in
  Z.max 0 (Z.min 255 (py_round (255 * srgb))).

(** The interpolation of [cam16Ucs] as the spec words it: each of J*, a*
    and b* is interpolated between its own two end points. *)
Definition cam16_ucs_coordinates_spec
    (from_cam to_cam : Snake.cam16.Cam16) (amount : R) : R * R * R :=
  (Snake.math_utils.lerp (Snake.cam16.jstar from_cam) (Snake.cam16.jstar to_cam) amount,
   Snake.math_utils.lerp (Snake.cam16.astar from_cam) (Snake.cam16.astar to_cam) amount,
   Snake.math_utils.lerp (Snake.cam16.bstar from_cam) (Snake.cam16.bstar to_cam) amount).

(** Two sample CAM16 values, of a saturated red and a saturated blue. *)
Definition sample_red : Snake.cam16.Cam16 :=
  Snake.cam16.mkCam16 27.41 113.36 46.45 105.99 89.49 91.89 59.58 43.30 22.45.
Definition sample_blue : Snake.cam16.Cam16 :=
  Snake.cam16.mkCam16 282.79 87.23 25.47 78.48 68.87 93.68 36.74 9.16 (-40.38).

(** Viewing conditions all of whose fields read by [Cam16.viewed] are
    positive. *)
Definition positive_conditions (vc : Snake.ViewingConditions.t) : Prop :=
  0 < Snake.ViewingConditions.n vc /\
  0 < Snake.ViewingConditions.aw vc /\
  0 < Snake.ViewingConditions.nbb vc /\
  0 < Snake.ViewingConditions.ncb vc /\
  0 < Snake.ViewingConditions.c vc /\
  0 < Snake.ViewingConditions.nc vc /\
  0 < Snake.ViewingConditions.fl vc /\
  0 < Snake.ViewingConditions.z vc /\
  0 < at0 (Snake.ViewingConditions.rgbD vc) /\
  0 < at1 (Snake.ViewingConditions.rgbD vc) /\
  0 < at2 (Snake.ViewingConditions.rgbD vc).

(** The value [p2] of [Cam16.viewed]: [aw * pow(j / 100, 1 / c / z) / nbb]. *)
Definition achromatic_p2
    (self : Snake.cam16.Cam16) (vc : Snake.ViewingConditions.t) : R :=
  Snake.ViewingConditions.aw vc
  * (if Req_dec_T (Snake.cam16.j self) 0 then 0
     else Rpower (Snake.cam16.j self / 100.0)
            (1.0 / Snake.ViewingConditions.c vc / Snake.ViewingConditions.z vc))
  / Snake.ViewingConditions.nbb vc.

(** The value of [pow(x, y)] for [x >= 0] and [y > 0]. *)
Definition pow_nonneg (x y : R) : R := if Req_dec_T x 0 then 0 else Rpower x y.

(** Viewing conditions with every field [1], the CAM16 value with every
    field [0], and two achromatic CAM16 values: one of lightness [50], one
    of lightness [122000], far above the lightness 100 of white. *)
Definition unit_conditions : Snake.ViewingConditions.t :=
  Snake.ViewingConditions.make 1 1 1 1 1 1 (Arr3 1 1 1) 1 1 1.
Definition zero_cam : Snake.cam16.Cam16 :=
  Snake.cam16.mkCam16 0 0 0 0 0 0 0 0 0.
Definition bright_gray : Snake.cam16.Cam16 :=
  Snake.cam16.mkCam16 0 0 122000 0 0 0 0 0 0.



(** The sixteen characters that [format_02x] writes. *)
Definition lower_hex_digit (c : ascii) : bool :=
  existsb (Ascii.eqb c) (list_ascii_of_string "0123456789abcdef").

(** A stand-in for [hct.py] in the examples: a table of two colours with a
    hue, a chroma and a tone each, and a constructor that keeps the triple
    it is given. *)
Definition sample_hct : Snake.Hct.api :=
  Snake.Hct.Api (R * R * R)
    (fun x => fst (fst x)) (fun x => snd (fst x)) (fun x => snd x)
    (fun argb => Ok (if (argb =? 0xFFFF0000)%Z then (27.41, 113.36, 53.24)
                     else (282.79, 87.23, 32.30)))
    (fun h c t => Ok (h, c, t))
    (fun _ => Ok 0xFF000000%Z).

(** ** Integers: packing and unpacking the four bytes *)

Lemma lor_mul_pow2_low (hi lo n : Z) :
  (0 <= n)%Z -> (0 <= lo < 2 ^ n)%Z ->
  Z.lor (hi * 2 ^ n) lo = (hi * 2 ^ n + lo)%Z.
Proof.
  intros Hn Hlo.
  rewrite <- (Z.add_lor_land (hi * 2 ^ n) lo).
  assert (Hz : Z.land (hi * 2 ^ n) lo = 0%Z).
  { apply Z.bits_inj'. intros k Hk.
    rewrite Z.land_spec, Z.bits_0.
    destruct (Z.lt_ge_cases k n) as [Hlt | Hge].
    - rewrite Z.mul_pow2_bits_low by assumption. reflexivity.
    - destruct (Z.eq_dec lo 0) as [-> | Hne].
      + rewrite Z.bits_0. apply andb_false_r.
      + rewrite (Z.bits_above_log2 lo k); [apply andb_false_r | lia |].
        assert (2 ^ n <= 2 ^ k)%Z by (apply Z.pow_le_mono_r; lia).
        apply Z.log2_lt_pow2; lia. }
  rewrite Hz. lia.
Qed.

Lemma pack_bytes (r g b : Z) :
  (0 <= r <= 255)%Z -> (0 <= g <= 255)%Z -> (0 <= b <= 255)%Z ->
  Z.lor (Z.lor (Z.lor (Z.shiftl 255 24) (Z.shiftl (Z.land r 255) 16))
               (Z.shiftl (Z.land g 255) 8))
        (Z.land b 255)
  = (4278190080 + 65536 * r + 256 * g + b)%Z.
Proof.
  intros Hr Hg Hb.
  change 255%Z with (Z.ones 8) at 2 3 4.
  rewrite !Z.land_ones by lia.
  change (2 ^ 8)%Z with 256%Z.
  rewrite !Z.mod_small by lia.
  rewrite !Z.shiftl_mul_pow2 by lia.
  rewrite (lor_mul_pow2_low 255 (r * 2 ^ 16) 24) by lia.
  replace (255 * 2 ^ 24 + r * 2 ^ 16)%Z with ((255 * 2 ^ 8 + r) * 2 ^ 16)%Z by lia.
  rewrite (lor_mul_pow2_low _ (g * 2 ^ 8) 16) by lia.
  replace ((255 * 2 ^ 8 + r) * 2 ^ 16 + g * 2 ^ 8)%Z
    with ((255 * 2 ^ 16 + r * 2 ^ 8 + g) * 2 ^ 8)%Z by lia.
  rewrite (lor_mul_pow2_low _ b 8) by lia.
  lia.
Qed.

Lemma unpack_bytes (r g b : Z) :
  (0 <= r <= 255)%Z -> (0 <= g <= 255)%Z -> (0 <= b <= 255)%Z ->
  let c := (4278190080 + 65536 * r + 256 * g + b)%Z in
  Z.land (Z.shiftr c 24) 255 = 255%Z /\
  Z.land (Z.shiftr c 16) 255 = r /\
  Z.land (Z.shiftr c 8) 255 = g /\
  Z.land c 255 = b.
Proof.
  intros Hr Hg Hb c. subst c.
  change 255%Z with (Z.ones 8) at 1 3 4 5.
  rewrite !Z.land_ones by lia.
  rewrite !Z.shiftr_div_pow2 by lia.
  change (2 ^ 8)%Z with 256%Z. change (2 ^ 16)%Z with 65536%Z.
  change (2 ^ 24)%Z with 16777216%Z.
  repeat split; Z.to_euclidean_division_equations; lia.
Qed.

Lemma argb_from_rgb_bytes (r g b : Z) :
  (0 <= r <= 255)%Z -> (0 <= g <= 255)%Z -> (0 <= b <= 255)%Z ->
  Snake.color_utils.argb_from_rgb r g b
  = (4278190080 + 65536 * r + 256 * g + b)%Z.
Proof.
  intros Hr Hg Hb.
  unfold Snake.color_utils.argb_from_rgb, Snake.color_utils.rshift.
  rewrite pack_bytes by assumption.
  destruct (Z.geb_spec (4278190080 + 65536 * r + 256 * g + b) 0); [| lia].
  apply Z.shiftr_0_r.
Qed.

(** ** Rounding and clamping *)

Lemma py_round_near (k : Z) (x : R) :
  IZR k - 1 / 2 < x < IZR k + 1 / 2 -> py_round x = k.
Proof.
  intros [Hlo Hhi]. unfold py_round.
  destruct (Rlt_dec x (IZR k)) as [Hlt | Hge].
  - assert (Hf : Zfloor x = (k - 1)%Z).
    { apply Zfloor_eq. rewrite minus_IZR. lra. }
    rewrite Hf, minus_IZR.
    destruct (Rlt_dec (x - (IZR k - 1)) (1 / 2)); [lra |].
    destruct (Rlt_dec (1 / 2) (x - (IZR k - 1))); [lia | lra].
  - assert (Hf : Zfloor x = k) by (apply Zfloor_eq; lra).
    rewrite Hf.
    destruct (Rlt_dec (x - IZR k) (1 / 2)); [reflexivity | lra].
Qed.

Lemma py_round_IZR (k : Z) : py_round (IZR k) = k.
Proof. apply py_round_near. lra. Qed.

Lemma py_round_ge (k : Z) (x : R) : IZR k - 1 / 2 < x -> (k <= py_round x)%Z.
Proof.
  intros Hx. unfold py_round.
  pose proof (Zfloor_bound x) as [Hlo Hhi].
  assert (Hf : (k - 1 <= Zfloor x)%Z).
  { apply Zfloor_lub. rewrite minus_IZR. lra. }
  destruct (Rlt_dec (x - IZR (Zfloor x)) (1 / 2)) as [Hd |].
  - destruct (Z.eq_dec (Zfloor x) (k - 1)) as [E |]; [| lia].
    rewrite E, minus_IZR in Hd. lra.
  - destruct (Rlt_dec (1 / 2) (x - IZR (Zfloor x))); [lia |].
    destruct (Z.even (Zfloor x)); [| lia].
    destruct (Z.eq_dec (Zfloor x) (k - 1)) as [E |]; [| lia].
    rewrite E, minus_IZR in *. lra.
Qed.

Lemma py_round_le (k : Z) (x : R) : x < IZR k + 1 / 2 -> (py_round x <= k)%Z.
Proof.
  intros Hx. unfold py_round.
  pose proof (Zfloor_bound x) as [Hlo Hhi].
  assert (Hf : (Zfloor x <= k)%Z).
  { destruct (Z.le_gt_cases (Zfloor x) k) as [| Hgt]; [assumption |].
    assert (IZR (k + 1) <= IZR (Zfloor x)) by (apply IZR_le; lia).
    rewrite plus_IZR in *. lra. }
  destruct (Rlt_dec (x - IZR (Zfloor x)) (1 / 2)) as [Hd | Hd]; [lia |].
  assert (Hk : (Zfloor x <= k - 1)%Z).
  { destruct (Z.eq_dec (Zfloor x) k) as [E |]; [| lia]. rewrite E in *. lra. }
  destruct (Rlt_dec (1 / 2) (x - IZR (Zfloor x))); [lia |].
  destruct (Z.even (Zfloor x)); lia.
Qed.

Lemma clamp_int_byte (v : Z) : (0 <= Snake.math_utils.clamp_int 0 255 v <= 255)%Z.
Proof.
  unfold Snake.math_utils.clamp_int.
  destruct (Z.ltb_spec v 0); [lia |].
  destruct (Z.gtb_spec v 255); lia.
Qed.

Lemma clamp_int_id (v : Z) :
  (0 <= v <= 255)%Z -> Snake.math_utils.clamp_int 0 255 v = v.
Proof.
  intros Hv. unfold Snake.math_utils.clamp_int.
  destruct (Z.ltb_spec v 0); [lia |].
  destruct (Z.gtb_spec v 255); lia.
Qed.

Lemma delinearized_byte (v : R) : (0 <= Snake.color_utils.delinearized v <= 255)%Z.
Proof. unfold Snake.color_utils.delinearized. apply clamp_int_byte. Qed.

(** ** The degree utilities *)

Ltac split_abs := unfold Rabs; repeat destruct Rcase_abs; try lra.

(** C8, the counterexample: two degree values more than a full turn apart.
    [difference_degrees(0, 720)] is [-360], below the claimed range
    [[0, 180]]. *)
Lemma difference_degrees_below_range :
  Snake.math_utils.difference_degrees 0 720 = -360 /\
  Camel.math_utils.differenceDegrees 0 720 = -360.
Proof.
  unfold Snake.math_utils.difference_degrees, Camel.math_utils.differenceDegrees.
  split; split_abs.
Qed.

(** C8, as amended: in both trees the difference of two degree values is
    symmetric, is [0] for equal arguments and never exceeds [180]; it is at
    least [0], hence in [[0, 180]], when the two arguments are at most a full
    turn ([360]) apart, as any two sanitized degrees in [[0, 360)] are. *)
Theorem difference_degrees_properties :
  (forall a b, Camel.math_utils.differenceDegrees a b
               = Snake.math_utils.difference_degrees a b) /\
  (forall a b, Snake.math_utils.difference_degrees a b
               = Snake.math_utils.difference_degrees b a) /\
  (forall x, Snake.math_utils.difference_degrees x x = 0) /\
  (forall a b, Snake.math_utils.difference_degrees a b <= 180) /\
  (forall a b, Rabs (a - b) <= 360 ->
               0 <= Snake.math_utils.difference_degrees a b <= 180) /\
  (forall a b, 0 <= a < 360 -> 0 <= b < 360 ->
               0 <= Snake.math_utils.difference_degrees a b <= 180).
Proof.
  unfold Snake.math_utils.difference_degrees, Camel.math_utils.differenceDegrees.
  repeat split; intros; try reflexivity;
    try (revert H; try revert H0); split_abs.
Qed.

Lemma difference_degrees_properties_witness :
  0 <= Snake.math_utils.difference_degrees 350 10 <= 180.
Proof.
  apply (proj2 (proj2 (proj2 (proj2 (proj2 difference_degrees_properties))))); lra.
Defined.

(** ** The clamps *)




(** ** Real powers with a rational exponent *)

Lemma Rpower_1_l (y : R) : Rpower 1 y = 1.
Proof. unfold Rpower. rewrite ln_1, Rmult_0_r. apply exp_0. Qed.

Lemma Rpower_pos (x y : R) : 0 < Rpower x y.
Proof. unfold Rpower. apply exp_pos. Qed.

(** A power with an exponent in [[0, 1]] is at most the larger of 1 and its
    base. *)
Lemma Rpower_le_max (x e : R) : 0 < x -> 0 <= e <= 1 -> Rpower x e <= Rmax 1 x.
Proof.
  intros Hx He. destruct (Rle_dec x 1) as [H1 | H1].
  - apply Rle_trans with 1; [| apply Rmax_l].
    rewrite <- (Rpower_1_l e). apply Rle_Rpower_l; lra.
  - apply Rle_trans with x; [| apply Rmax_r].
    rewrite <- (Rpower_1 x) at 2 by exact Hx.
    apply Rle_Rpower; lra.
Qed.

Lemma Rpower_pow_ratio (x y : R) (p q : nat) :
  0 < x -> y * INR q = INR p -> Rpower x y ^ q = x ^ p.
Proof.
  intros Hx Hy.
  rewrite <- (Rpower_pow q) by (unfold Rpower; apply exp_pos).
  rewrite Rpower_mult, Hy. apply Rpower_pow. assumption.
Qed.

Lemma pow_lt_inv (u b : R) (q : nat) :
  0 <= u -> 0 <= b -> u ^ q < b ^ q -> u < b.
Proof.
  intros Hu Hb Hlt.
  destruct (Rlt_dec u b) as [H | H]; [assumption |].
  exfalso. apply (Rlt_not_le _ _ Hlt). apply pow_incr. lra.
Qed.

Lemma Rpower_lt_bound (x y b : R) (p q : nat) :
  0 < x -> 0 <= b -> y * INR q = INR p -> x ^ p < b ^ q -> Rpower x y < b.
Proof.
  intros Hx Hb Hy Hlt.
  apply (pow_lt_inv _ _ q); [left; unfold Rpower; apply exp_pos | assumption |].
  rewrite (Rpower_pow_ratio x y p q) by assumption. assumption.
Qed.

Lemma Rpower_gt_bound (x y b : R) (p q : nat) :
  0 < x -> 0 <= b -> y * INR q = INR p -> b ^ q < x ^ p -> b < Rpower x y.
Proof.
  intros Hx Hb Hy Hlt.
  apply (pow_lt_inv _ _ q); [assumption | left; unfold Rpower; apply exp_pos |].
  rewrite (Rpower_pow_ratio x y p q) by assumption. assumption.
Qed.

(** ** Linearizing and delinearizing single channels *)

Lemma linearized_0 : Snake.color_utils.linearized 0 = 0.
Proof.
  unfold Snake.color_utils.linearized.
  destruct Rle_dec as [_ | H]; [lra | exfalso; apply H; lra].
Qed.

Lemma linearized_255 : Snake.color_utils.linearized 255 = 100.
Proof.
  unfold Snake.color_utils.linearized.
  destruct Rle_dec as [H | _]; [lra |].
  replace ((255 / 255.0 + 0.055) / 1.055) with 1 by lra.
  rewrite Rpower_1_l. lra.
Qed.

Lemma delinearized_0 : Snake.color_utils.delinearized 0 = 0%Z.
Proof.
  unfold Snake.color_utils.delinearized.
  destruct Rle_dec as [_ | H]; [| exfalso; apply H; lra].
  replace (0 / 100.0 * 12.92 * 255.0) with (IZR 0) by lra.
  rewrite py_round_IZR. reflexivity.
Qed.

(** On the power branch the channel is [k] as soon as the twelfth powers of
    the two half-way points enclose the fifth power of the input. *)
Lemma delinearized_power_eq (v : R) (k : Z) :
  (0 <= k <= 255)%Z ->
  0.0031308 < v / 100.0 ->
  (((IZR k - 1 / 2) / 255 + 0.055) / 1.055) ^ 12 < (v / 100.0) ^ 5 ->
  (v / 100.0) ^ 5 < (((IZR k + 1 / 2) / 255 + 0.055) / 1.055) ^ 12 ->
  Snake.color_utils.delinearized v = k.
Proof.
  intros Hk Hv Hlo Hhi.
  assert (Hk0 : 0 <= IZR k <= 255).
  { split; [apply (IZR_le 0) | apply (IZR_le k 255)]; lia. }
  assert (Hp1 : ((IZR k - 1 / 2) / 255 + 0.055) / 1.055
                < Rpower (v / 100.0) (1.0 / 2.4)).
  { apply (Rpower_gt_bound _ _ _ 5 12); [| | | exact Hlo];
      clear Hlo Hhi; simpl INR; lra. }
  assert (Hp2 : Rpower (v / 100.0) (1.0 / 2.4)
                < ((IZR k + 1 / 2) / 255 + 0.055) / 1.055).
  { apply (Rpower_lt_bound _ _ _ 5 12); [| | | exact Hhi];
      clear Hlo Hhi; simpl INR; lra. }
  clear Hlo Hhi.
  unfold Snake.color_utils.delinearized.
  destruct Rle_dec as [H | _]; [lra |].
  rewrite (py_round_near k) by lra.
  apply clamp_int_id. assumption.
Qed.

(** ** Channel ranges of the conversions *)

Lemma clamp_int_max_min (v : Z) :
  Snake.math_utils.clamp_int 0 255 v = Z.max 0 (Z.min 255 v).
Proof.
  unfold Snake.math_utils.clamp_int.
  destruct (Z.ltb_spec v 0); [lia |].
  destruct (Z.gtb_spec v 255); lia.
Qed.

Lemma delinearized_as_specified (v : R) :
  Snake.color_utils.delinearized v = delinearize_spec v.
Proof.
  unfold Snake.color_utils.delinearized, delinearize_spec.
  rewrite clamp_int_max_min. do 3 f_equal.
  replace (v / 100.0) with (v / 100) by lra.
  replace (1.0 / 2.4) with (1 / 2.4) by lra.
  destruct Rle_dec; lra.
Qed.

Lemma opaque_bytes_of_bytes (r g b : Z) :
  (0 <= r <= 255)%Z -> (0 <= g <= 255)%Z -> (0 <= b <= 255)%Z ->
  opaque_bytes (4278190080 + 65536 * r + 256 * g + b).
Proof.
  intros Hr Hg Hb.
  destruct (unpack_bytes r g b Hr Hg Hb) as (Ha & Hr' & Hg' & Hb').
  unfold opaque_bytes, Snake.color_utils.alpha_from_argb,
    Snake.color_utils.red_from_argb, Snake.color_utils.green_from_argb,
    Snake.color_utils.blue_from_argb.
  cbv zeta in Ha, Hr', Hg', Hb'.
  rewrite Ha, Hr', Hg', Hb'. repeat split; lia.
Qed.

Lemma argb_from_xyz_bytes (x y z : R) :
  let m := Snake.color_utils.XYZ_TO_SRGB in
  let r := Snake.color_utils.delinearized
             (at0 (at0 m) * x + at1 (at0 m) * y + at2 (at0 m) * z) in
  let g := Snake.color_utils.delinearized
             (at0 (at1 m) * x + at1 (at1 m) * y + at2 (at1 m) * z) in
  let b := Snake.color_utils.delinearized
             (at0 (at2 m) * x + at1 (at2 m) * y + at2 (at2 m) * z) in
  Snake.color_utils.argb_from_xyz x y z
  = (4278190080 + 65536 * r + 256 * g + b)%Z.
Proof.
  intros m r g b. unfold Snake.color_utils.argb_from_xyz.
  apply argb_from_rgb_bytes; apply delinearized_byte.
Qed.

Lemma argb_from_xyz_opaque (x y z : R) :
  opaque_bytes (Snake.color_utils.argb_from_xyz x y z).
Proof.
  rewrite argb_from_xyz_bytes.
  apply opaque_bytes_of_bytes; apply delinearized_byte.
Qed.

Lemma delinearized_scaled_bound (v : R) :
  Rabs v <= 1000000000000000 ->
  Rabs (delinearized_scaled v) <= 100000000000000000.
Proof.
  intros Hv. unfold delinearized_scaled. cbv zeta.
  assert (Hv' : -1000000000000000 <= v <= 1000000000000000).
  { revert Hv. unfold Rabs. destruct Rcase_abs; lra. }
  destruct Rle_dec as [Hl | Hl].
  - unfold Rabs. destruct Rcase_abs; lra.
  - pose proof (Rpower_pos (v / 100.0) (1.0 / 2.4)) as Hp0.
    pose proof (Rpower_le_max (v / 100.0) (1.0 / 2.4) ltac:(lra) ltac:(lra)) as Hp1.
    assert (Hm : Rmax 1 (v / 100.0) <= 10000000000000).
    { apply Rmax_lub; lra. }
    set (p := Rpower (v / 100.0) (1.0 / 2.4)) in *. clearbody p.
    unfold Rabs. destruct Rcase_abs; lra.
Qed.

(** For a linear component of magnitude up to 10^15 the value that
    [delinearized] rounds is a 64-bit integer. *)
Lemma delinearized_rounds_in_int64 (v : R) :
  Rabs v <= 1000000000000000 -> int64 (py_round (delinearized_scaled v)).
Proof.
  intros Hv. pose proof (delinearized_scaled_bound v Hv) as Hb.
  assert (Hb' : -100000000000000000 <= delinearized_scaled v <= 100000000000000000).
  { revert Hb. unfold Rabs. destruct Rcase_abs; lra. }
  pose proof (py_round_ge (-100000000000000000) (delinearized_scaled v) ltac:(lra)).
  pose proof (py_round_le 100000000000000000 (delinearized_scaled v) ltac:(lra)).
  unfold int64. lia.
Qed.

(** C10: every conversion to ARGB yields channels in [[0, 255]].
    [delinearized] returns, for every real input, an integer in [[0, 255]].
    For a linear component of magnitude up to 10^15 (those of a colour lie
    in [[0, 100]]) the float it rounds, [delinearized_scaled], rounds to a
    64-bit integer, and the result is the rounded and then clamped value of
    the transfer function, as the spec words it ([delinearize_spec]).  [argb_from_xyz] packs three results
    of [delinearized], so its red, green and blue channels are exactly
    these values and together with the alpha byte [255] they make up the
    whole result; the same holds of [argb_From_lstar] and [argd_from_lab],
    which end in [argb_from_xyz]. *)
Theorem conversions_stay_in_range :
  (forall v, (0 <= Snake.color_utils.delinearized v <= 255)%Z) /\
  (forall v, Rabs v <= 1000000000000000 ->
     int64 (py_round (delinearized_scaled v)) /\
     Snake.color_utils.delinearized v
     = Snake.math_utils.clamp_int 0 255 (py_round (delinearized_scaled v)) /\
     Snake.color_utils.delinearized v = delinearize_spec v) /\
  (forall x y z,
     let m := Snake.color_utils.XYZ_TO_SRGB in
     let c := Snake.color_utils.argb_from_xyz x y z in
     opaque_bytes c /\
     Snake.color_utils.red_from_argb c
     = Snake.color_utils.delinearized
         (at0 (at0 m) * x + at1 (at0 m) * y + at2 (at0 m) * z) /\
     Snake.color_utils.green_from_argb c
     = Snake.color_utils.delinearized
         (at0 (at1 m) * x + at1 (at1 m) * y + at2 (at1 m) * z) /\
     Snake.color_utils.blue_from_argb c
     = Snake.color_utils.delinearized
         (at0 (at2 m) * x + at1 (at2 m) * y + at2 (at2 m) * z)) /\
  (forall lstar, opaque_bytes (Snake.color_utils.argb_From_lstar lstar)) /\
  (forall l a b, opaque_bytes (Snake.color_utils.argd_from_lab l a b)).
Proof.
  split; [exact delinearized_byte |].
  split.
  { intros v Hv. split; [apply delinearized_rounds_in_int64, Hv |].
    split; [reflexivity | apply delinearized_as_specified]. }
  split; [| split].
  2: { intros lstar. unfold Snake.color_utils.argb_From_lstar. cbv zeta.
       apply argb_from_xyz_opaque. }
  2: { intros l a b. unfold Snake.color_utils.argd_from_lab. cbv zeta.
       apply argb_from_xyz_opaque. }
  intros x y z m c.
  split; [apply argb_from_xyz_opaque |].
  subst c. rewrite argb_from_xyz_bytes. fold m.
  set (r := Snake.color_utils.delinearized _).
  set (g := Snake.color_utils.delinearized _).
  set (b := Snake.color_utils.delinearized _).
  destruct (unpack_bytes r g b) as (_ & Hr & Hg & Hb);
    try apply delinearized_byte.
  repeat split; assumption.
Qed.

Lemma conversions_stay_in_range_witness :
  int64 (py_round (delinearized_scaled 250)) /\
  Snake.color_utils.delinearized 250
  = Snake.math_utils.clamp_int 0 255 (py_round (delinearized_scaled 250)) /\
  Snake.color_utils.delinearized 250 = delinearize_spec 250.
Proof.
  apply (proj1 (proj2 conversions_stay_in_range) 250).
  unfold Rabs. destruct Rcase_abs; lra.
Defined.

(** ** The two matrix products *)

Lemma xyz_from_argb_red :
  Snake.color_utils.xyz_from_argb 0xFFFF0000 = Arr3 41.233895 35.762064 18.051042.
Proof.
  unfold Snake.color_utils.xyz_from_argb, Snake.math_utils.matrix_multiply,
    np_dot_vec_mat.
  change (Snake.color_utils.red_from_argb 0xFFFF0000) with 255%Z.
  change (Snake.color_utils.green_from_argb 0xFFFF0000) with 0%Z.
  change (Snake.color_utils.blue_from_argb 0xFFFF0000) with 0%Z.
  rewrite linearized_255, linearized_0. cbn.
  f_equal; lra.
Qed.

Lemma xyzFromArgb_red :
  Camel.color_utils.xyzFromArgb 0xFFFF0000 = Arr3 41.233895 21.26 1.932141.
Proof.
  unfold Camel.color_utils.xyzFromArgb, Camel.math_utils.matrixMultiply.
  change (Camel.color_utils.redFromArgb 0xFFFF0000) with 255%Z.
  change (Camel.color_utils.greenFromArgb 0xFFFF0000) with 0%Z.
  change (Camel.color_utils.blueFromArgb 0xFFFF0000) with 0%Z.
  change Camel.color_utils.linearized with Snake.color_utils.linearized.
  rewrite linearized_255, linearized_0. cbn.
  f_equal; lra.
Qed.

(** C2, the code at the failing input: [matrix_multiply] is [matrixMultiply]
    of the transposed matrix, for every row and matrix, and on pure red
    ([0xFFFF0000]) the two [xyz_from_argb] differ in Y and Z: the snake_case
    tree returns the first row of [SRGB_TO_XYZ] scaled by 100, the camelCase
    tree its first column.  The product [np.dot(matrix, row)] that
    [lab_from_argb] of the snake_case tree takes is [matrixMultiply]. *)
Theorem matrix_multiply_is_transposed :
  (forall row m,
     Snake.math_utils.matrix_multiply row m
     = Camel.math_utils.matrixMultiply row (transpose m)) /\
  (forall row m,
     np_dot_mat_vec m row = Camel.math_utils.matrixMultiply row m) /\
  Snake.color_utils.xyz_from_argb 0xFFFF0000
  = Arr3 41.233895 35.762064 18.051042 /\
  Camel.color_utils.xyzFromArgb 0xFFFF0000
  = Arr3 41.233895 21.26 1.932141.
Proof.
  split; [| split; [| split; [exact xyz_from_argb_red | exact xyzFromArgb_red]]].
  - intros row m. reflexivity.
  - intros row m. unfold np_dot_mat_vec, Camel.math_utils.matrixMultiply.
    f_equal; ring.
Qed.

(** ** L* of white and of black *)

(** C4, the code at the failing input: [argb_from_rgb(255, 255, 255)] is
    [0xFFFFFFFF] in both trees, L* of black is [0] in both trees and L* of
    white is [100] in the camelCase tree, as is the L of
    [lab_from_argb(0xFFFFFFFF)] in the snake_case tree; but in the snake_case
    tree [lstar_from_argb(0xFFFFFFFF)] lies between 106.9 and 107.1, since
    its Y is the sum of the middle column of [SRGB_TO_XYZ], 119.198446. *)
Theorem lstar_of_white_and_black :
  Snake.color_utils.argb_from_rgb 255 255 255 = 0xFFFFFFFF%Z /\
  Camel.color_utils.argbFromRgb 255 255 255 = 0xFFFFFFFF%Z /\
  Snake.color_utils.lstar_from_argb 0xFF000000 = 0 /\
  Camel.color_utils.lstarFromArgb 0xFF000000 = 0 /\
  Camel.color_utils.lstarFromArgb 0xFFFFFFFF = 100 /\
  at0 (Snake.color_utils.lab_from_argb 0xFFFFFFFF) = 100 /\
  at1 (Snake.color_utils.xyz_from_argb 0xFFFFFFFF) = 119.198446 /\
  106.9 < Snake.color_utils.lstar_from_argb 0xFFFFFFFF < 107.1.
Proof.
  split; [reflexivity |]. split; [reflexivity |].
  split; [| split; [| split; [| split; [| split]]]].
  - unfold Snake.color_utils.lstar_from_argb, Snake.color_utils.xyz_from_argb.
    change (Snake.color_utils.red_from_argb 0xFF000000) with 0%Z.
    change (Snake.color_utils.green_from_argb 0xFF000000) with 0%Z.
    change (Snake.color_utils.blue_from_argb 0xFF000000) with 0%Z.
    rewrite linearized_0. cbn.
    destruct Rle_dec as [_ | H]; [lra | exfalso; apply H; lra].
  - unfold Camel.color_utils.lstarFromArgb, Camel.color_utils.xyzFromArgb.
    change (Camel.color_utils.redFromArgb 0xFF000000) with 0%Z.
    change (Camel.color_utils.greenFromArgb 0xFF000000) with 0%Z.
    change (Camel.color_utils.blueFromArgb 0xFF000000) with 0%Z.
    change Camel.color_utils.linearized with Snake.color_utils.linearized.
    rewrite linearized_0. cbn.
    destruct Rle_dec as [_ | H]; [lra | exfalso; apply H; lra].
  - unfold Camel.color_utils.lstarFromArgb, Camel.color_utils.xyzFromArgb.
    change (Camel.color_utils.redFromArgb 0xFFFFFFFF) with 255%Z.
    change (Camel.color_utils.greenFromArgb 0xFFFFFFFF) with 255%Z.
    change (Camel.color_utils.blueFromArgb 0xFFFFFFFF) with 255%Z.
    change Camel.color_utils.linearized with Snake.color_utils.linearized.
    rewrite linearized_255. cbn.
    destruct Rle_dec as [H | _]; [lra |].
    replace ((100 * 0.2126 + 100 * 0.7152 + 100 * 0.0722) / 100.0) with 1 by lra.
    rewrite Rpower_1_l. lra.
  - unfold Snake.color_utils.lab_from_argb, array3_map, np_dot_mat_vec,
      Snake.color_utils.labf.
    change (Snake.color_utils.red_from_argb 0xFFFFFFFF) with 255%Z.
    change (Snake.color_utils.green_from_argb 0xFFFFFFFF) with 255%Z.
    change (Snake.color_utils.blue_from_argb 0xFFFFFFFF) with 255%Z.
    rewrite linearized_255. cbn.
    replace ((0.2126 * 100 + 0.7152 * 100 + 0.0722 * 100) / 100.0) with 1 by lra.
    destruct Rlt_dec as [_ | H]; [| exfalso; apply H; lra].
    rewrite Rpower_1_l. lra.
  - unfold Snake.color_utils.xyz_from_argb.
    change (Snake.color_utils.red_from_argb 0xFFFFFFFF) with 255%Z.
    change (Snake.color_utils.green_from_argb 0xFFFFFFFF) with 255%Z.
    change (Snake.color_utils.blue_from_argb 0xFFFFFFFF) with 255%Z.
    rewrite linearized_255. cbn. lra.
  - unfold Snake.color_utils.lstar_from_argb, Snake.color_utils.xyz_from_argb.
    change (Snake.color_utils.red_from_argb 0xFFFFFFFF) with 255%Z.
    change (Snake.color_utils.green_from_argb 0xFFFFFFFF) with 255%Z.
    change (Snake.color_utils.blue_from_argb 0xFFFFFFFF) with 255%Z.
    rewrite linearized_255. cbn.
    destruct Rle_dec as [H | _]; [lra |].
    set (y := (100 * 0.35762064 + 100 * 0.7152 + 100 * 0.11916382) / 100.0).
    assert (Hlo : 122.9 / 116 < Rpower y (1.0 / 3.0)).
    { apply (Rpower_gt_bound _ _ _ 1 3); subst y; simpl INR; lra. }
    assert (Hhi : Rpower y (1.0 / 3.0) < 123.1 / 116).
    { apply (Rpower_lt_bound _ _ _ 1 3); subst y; simpl INR; lra. }
    lra.
Qed.

(** ** The round trip through XYZ in the snake_case tree *)

(** C1, the code at the failing input: in the snake_case tree pure red
    ([0xFFFF0000]) does not come back from the round trip through XYZ;
    [argb_from_xyz] applied to the three components of
    [xyz_from_argb(0xFFFF0000)] is [0xFFD99069], that is (217, 144, 105). *)
Theorem snake_round_trip_of_red :
  let xyz := Snake.color_utils.xyz_from_argb 0xFFFF0000 in
  Snake.color_utils.argb_from_xyz (at0 xyz) (at1 xyz) (at2 xyz) = 0xFFD99069%Z.
Proof.
  cbv zeta. rewrite xyz_from_argb_red. cbn [at0 at1 at2].
  rewrite argb_from_xyz_bytes. cbv zeta. cbn [at0 at1 at2 Snake.color_utils.XYZ_TO_SRGB].
  rewrite (delinearized_power_eq _ 217), (delinearized_power_eq _ 144),
    (delinearized_power_eq _ 105); try lia; try lra.
Qed.

(** ** The CAM16-UCS blend *)

(** C3, the code at the failing input: the a* that [cam16_ucs] hands to
    [Cam16.from_ucs] is interpolated between [from.astar] and [to.bstar];
    [to.astar] is read and overwritten.  J* and b* are interpolated as the
    spec says, and the result is [to_int] of [from_ucs] of the three
    coordinates.  For the sample red and blue and [amount = 0.5] the code's
    a* is 1.46 where the spec's interpolation gives 26.23. *)
Theorem cam16_ucs_reads_bstar_twice :
  (forall from_cam to_cam amount,
     Snake.Blend.cam16_ucs_coordinates from_cam to_cam amount
     = (Snake.math_utils.lerp (Snake.cam16.jstar from_cam) (Snake.cam16.jstar to_cam) amount,
        Snake.math_utils.lerp (Snake.cam16.astar from_cam) (Snake.cam16.bstar to_cam) amount,
        Snake.math_utils.lerp (Snake.cam16.bstar from_cam) (Snake.cam16.bstar to_cam) amount)) /\
  (forall DEFAULT from_v to amount,
     Snake.Blend.cam16_ucs DEFAULT from_v to amount
     = (from_cam <- Snake.cam16.from_int DEFAULT from_v ;;
        to_cam <- Snake.cam16.from_int DEFAULT to ;;
        r <- Snake.cam16.from_ucs DEFAULT
               (Snake.math_utils.lerp (Snake.cam16.jstar from_cam) (Snake.cam16.jstar to_cam) amount)
               (Snake.math_utils.lerp (Snake.cam16.astar from_cam) (Snake.cam16.bstar to_cam) amount)
               (Snake.math_utils.lerp (Snake.cam16.bstar from_cam) (Snake.cam16.bstar to_cam) amount) ;;
        Snake.cam16.to_int DEFAULT r)) /\
  Snake.Blend.cam16_ucs_coordinates sample_red sample_blue 0.5
  = (48.16, 1.46, -8.965) /\
  cam16_ucs_coordinates_spec sample_red sample_blue 0.5
  = (48.16, 26.23, -8.965).
Proof.
  assert (Hcoord : forall from_cam to_cam amount,
     Snake.Blend.cam16_ucs_coordinates from_cam to_cam amount
     = (Snake.math_utils.lerp (Snake.cam16.jstar from_cam) (Snake.cam16.jstar to_cam) amount,
        Snake.math_utils.lerp (Snake.cam16.astar from_cam) (Snake.cam16.bstar to_cam) amount,
        Snake.math_utils.lerp (Snake.cam16.bstar from_cam) (Snake.cam16.bstar to_cam) amount)).
  { intros f t a. unfold Snake.Blend.cam16_ucs_coordinates, Snake.math_utils.lerp.
    cbv zeta. f_equal; [f_equal |]; lra. }
  split; [exact Hcoord |]. split; [| split].
  - intros DEFAULT from_v to amount. unfold Snake.Blend.cam16_ucs.
    destruct (Snake.cam16.from_int DEFAULT from_v) as [fc | e]; [| reflexivity].
    destruct (Snake.cam16.from_int DEFAULT to) as [tc | e]; [| reflexivity].
    cbv beta iota delta [bind]. rewrite Hcoord. reflexivity.
  - unfold Snake.Blend.cam16_ucs_coordinates. cbn. f_equal; [f_equal |]; lra.
  - unfold cam16_ucs_coordinates_spec, Snake.math_utils.lerp.
    cbn. f_equal; [f_equal |]; lra.
Qed.

(** ** [Cam16.viewed] on achromatic values *)

Lemma py_div_ok (x y : R) : y <> 0 -> py_div x y = Ok (x / y).
Proof.
  intros H. unfold py_div. destruct Req_dec_T; [contradiction | reflexivity].
Qed.

Lemma py_div_zero (x y : R) : y = 0 -> py_div x y = Raise ZeroDivisionError.
Proof.
  intros H. unfold py_div. destruct Req_dec_T; [reflexivity | contradiction].
Qed.

Lemma py_div_zero_num (x y : R) : x = 0 -> y <> 0 -> py_div x y = Ok 0.
Proof.
  intros Hx Hy. rewrite py_div_ok by assumption.
  f_equal. subst x. unfold Rdiv. lra.
Qed.

Lemma py_pow_pos (x y : R) : 0 < x -> py_pow x y = Ok (Rpower x y).
Proof.
  intros H. unfold py_pow. destruct Rlt_dec; [reflexivity | contradiction].
Qed.

Lemma py_pow_zero (x y : R) : x = 0 -> 0 < y -> py_pow x y = Ok 0.
Proof.
  intros Hx Hy. unfold py_pow.
  destruct Rlt_dec; [lra |].
  destruct Req_dec_T; [| contradiction].
  destruct Rlt_dec; [lra |].
  destruct Req_dec_T; [lra | reflexivity].
Qed.

Lemma py_pow_nonneg (x y : R) :
  0 <= x -> 0 < y -> py_pow x y = Ok (pow_nonneg x y).
Proof.
  intros Hx Hy. unfold pow_nonneg. destruct Req_dec_T as [E | E].
  - apply py_pow_zero; assumption.
  - apply py_pow_pos. lra.
Qed.

Lemma Rpower_029_lt_1 (n : R) : 0 < n -> Rpower 0.29 n < 1.
Proof.
  intros Hn. unfold Rpower. rewrite <- exp_0. apply exp_increasing.
  assert (ln 0.29 < 0) by (rewrite <- ln_1; apply ln_increasing; lra).
  nra.
Qed.

Lemma eHue_pos (x : R) : 0.7 <= 0.25 * (cos x + 3.8).
Proof. pose proof (COS_bound x). lra. Qed.

Lemma achromatic_p2_nonneg self vc :
  positive_conditions vc -> 0 <= achromatic_p2 self vc.
Proof.
  intros (Hn & Haw & Hnbb & _). unfold achromatic_p2.
  apply Rmult_le_pos;
    [apply Rmult_le_pos; [lra |] | left; apply Rinv_0_lt_compat; lra].
  destruct Req_dec_T; [lra | left; apply Rpower_pos].
Qed.

Ltac run := cbv beta iota zeta delta [bind].

Ltac achromatic_channel P :=
  match goal with
  | |- context [Rabs ?e] =>
      replace e with (460 * P / 1403) by (unfold Rdiv; lra)
  end;
  rewrite (Rabs_pos_eq (460 * P / 1403)) by lra.

(** With [alpha = 0] every step of [viewed] up to the three divisions by
    [400 - |rA|] succeeds, and the three channels coincide. *)
Lemma viewed_achromatic self vc :
  positive_conditions vc ->
  (Snake.cam16.chroma self = 0 \/ Snake.cam16.j self = 0) ->
  0 <= Snake.cam16.j self ->
  Snake.cam16.viewed self vc =
  (let p2 := achromatic_p2 self vc in
   let rA := 460 * p2 / 1403 in
   base <- py_div (27.13 * rA) (400.0 - rA) ;;
   let cC := Snake.math_utils.signum rA
             * (100.0 / Snake.ViewingConditions.fl vc)
             * pow_nonneg (Rmax 0 base) (1.0 / 0.42) in
   let rF := cC / at0 (Snake.ViewingConditions.rgbD vc) in
   let gF := cC / at1 (Snake.ViewingConditions.rgbD vc) in
   let bF := cC / at2 (Snake.ViewingConditions.rgbD vc) in
   Ok (Snake.color_utils.argb_from_xyz
         (1.86206786 * rF - 1.01125463 * gF + 0.14918677 * bF)
         (0.38752654 * rF + 0.62144744 * gF - 0.00897398 * bF)
         (-0.01584150 * rF - 0.03412294 * gF + 1.04996444 * bF))).
Proof.
  intros Hpos Hzero Hj.
  pose proof (achromatic_p2_nonneg self vc Hpos) as HP.
  destruct Hpos as (Hn & Haw & Hnbb & Hncb & Hc & Hnc & Hfl & Hz & Hd0 & Hd1 & Hd2).
  unfold achromatic_p2 in *.
  set (J := if Req_dec_T (Snake.cam16.j self) 0 then 0
            else Rpower (Snake.cam16.j self / 100.0)
                   (1.0 / Snake.ViewingConditions.c vc / Snake.ViewingConditions.z vc)) in *.
  unfold Snake.cam16.viewed.
  assert (Halpha :
    (if Req_dec_T (Snake.cam16.chroma self) 0.0 then Ok 0.0
     else if Req_dec_T (Snake.cam16.j self) 0.0 then Ok 0.0
     else (r <- math_sqrt (Snake.cam16.j self / 100.0) ;;
           py_div (Snake.cam16.chroma self) r)) = Ok 0).
  { destruct (Req_dec_T (Snake.cam16.chroma self) 0.0); [f_equal; lra |].
    destruct (Req_dec_T (Snake.cam16.j self) 0.0); [f_equal; lra |].
    exfalso. destruct Hzero; lra. }
  rewrite Halpha. run.
  rewrite py_pow_pos by lra. run.
  pose proof (Rpower_029_lt_1 _ Hn) as H029.
  rewrite py_pow_pos by lra. run.
  rewrite py_div_ok by (apply Rgt_not_eq, Rpower_pos). run.
  rewrite py_pow_zero; [| unfold Rdiv; lra | lra]. run.
  rewrite py_div_ok by lra. run.
  rewrite py_div_ok by lra. run.
  assert (Hac0 :
    py_pow (Snake.cam16.j self / 100.0)
      (1.0 / Snake.ViewingConditions.c vc / Snake.ViewingConditions.z vc) = Ok J).
  { subst J. destruct Req_dec_T as [E | E].
    - apply py_pow_zero; [rewrite E; lra |].
      apply Rdiv_lt_0_compat; [apply Rdiv_lt_0_compat; lra | lra].
    - apply py_pow_pos. lra. }
  rewrite Hac0. run.
  rewrite py_div_ok by lra. run.
  set (P := Snake.ViewingConditions.aw vc * J / Snake.ViewingConditions.nbb vc) in *.
  rewrite py_div_zero_num; [| lra |].
  2:{ pose proof (eHue_pos (Snake.cam16.hue self * PI / 180.0 + 2.0)) as He.
      set (e := 0.25 * (cos (Snake.cam16.hue self * PI / 180.0 + 2.0) + 3.8)) in *.
      assert (0 < e * (50000.0 / 13.0) * Snake.ViewingConditions.nc vc
                  * Snake.ViewingConditions.ncb vc).
      { apply Rmult_lt_0_compat;
          [apply Rmult_lt_0_compat; [apply Rmult_lt_0_compat |] |]; lra. }
      lra. }
  run.
  achromatic_channel P.
  destruct (py_div (27.13 * (460 * P / 1403)) (400.0 - 460 * P / 1403))
    as [base | e] eqn:Hbase; [| reflexivity].
  rewrite py_div_ok by lra. run.
  rewrite py_pow_nonneg; [| apply Rmax_l | lra]. run.
  achromatic_channel P. rewrite Hbase. run.
  rewrite py_pow_nonneg; [| apply Rmax_l | lra]. run.
  achromatic_channel P. rewrite Hbase. run.
  rewrite py_pow_nonneg; [| apply Rmax_l | lra]. run.
  rewrite !py_div_ok by lra. run.
  repeat match goal with
  | |- context [Snake.math_utils.signum ?e] =>
      progress replace e with (460 * P / 1403) by (unfold Rdiv; lra)
  end.
  reflexivity.
Qed.

Lemma unit_conditions_positive : positive_conditions unit_conditions.
Proof. unfold positive_conditions, unit_conditions. cbn. repeat split; lra. Qed.

Lemma argb_from_xyz_0 : Snake.color_utils.argb_from_xyz 0 0 0 = 0xFF000000%Z.
Proof.
  rewrite argb_from_xyz_bytes. cbv zeta.
  cbn [at0 at1 at2 Snake.color_utils.XYZ_TO_SRGB].
  repeat match goal with
  | |- context [Snake.color_utils.delinearized ?e] =>
      progress replace e with 0 by lra
  end.
  rewrite delinearized_0. reflexivity.
Qed.

Lemma viewed_black
    (self : Snake.cam16.Cam16) (vc : Snake.ViewingConditions.t) :
  positive_conditions vc ->
  Snake.cam16.j self = 0 ->
  Snake.cam16.viewed self vc = Ok 0xFF000000%Z.
Proof.
  intros Hpos Hj0.
  rewrite (viewed_achromatic self vc Hpos (or_intror Hj0)) by lra. cbv zeta.
  assert (Hp : achromatic_p2 self vc = 0).
  { unfold achromatic_p2. destruct Req_dec_T; [| contradiction].
    unfold Rdiv. lra. }
  rewrite Hp. rewrite py_div_zero_num by lra. run.
  assert (Hs : Snake.math_utils.signum (460 * 0 / 1403) = 0).
  { unfold Snake.math_utils.signum.
    destruct Rlt_dec; [lra |]. destruct Req_dec_T; [reflexivity | lra]. }
  rewrite Hs. rewrite <- argb_from_xyz_0. f_equal.
  f_equal; unfold Rdiv; lra.
Qed.





(** The bound on the lightness is needed: far above the lightness of white,
    at [j = 122000] under the unit conditions, [p2] is 1220 and
    [rA = 460 * 1220 / 1403 = 400], so the division by [400.0 - abs(rA)] has
    a zero denominator. *)
Lemma viewed_bright_gray_raises :
  Snake.cam16.chroma bright_gray = 0 /\
  Snake.cam16.viewed bright_gray unit_conditions = Raise ZeroDivisionError.
Proof.
  split; [reflexivity |].
  rewrite viewed_achromatic;
    [| exact unit_conditions_positive | left; reflexivity | cbn; lra].
  assert (Hp : achromatic_p2 bright_gray unit_conditions = 1220).
  { unfold achromatic_p2, bright_gray, unit_conditions. cbn.
    destruct Req_dec_T as [E | _]; [lra |].
    replace (1.0 / 1 / 1) with 1 by lra.
    rewrite Rpower_1 by lra. lra. }
  cbv zeta. rewrite Hp.
  rewrite py_div_zero by lra. reflexivity.
Qed.

(** ** [Blend.harmonize] *)

Lemma sanitize_cases (x : R) :
  -360 <= x < 720 ->
  (x < 0 /\ Snake.math_utils.sanitize_degrees_double x = x + 360) \/
  (0 <= x < 360 /\ Snake.math_utils.sanitize_degrees_double x = x) \/
  (360 <= x /\ Snake.math_utils.sanitize_degrees_double x = x - 360).
Proof.
  intros Hx. unfold Snake.math_utils.sanitize_degrees_double, py_fmod.
  destruct (Rlt_dec x 0) as [Hneg | Hnn].
  - left. split; [assumption |].
    rewrite (Zfloor_eq (-1)) by (unfold Rdiv; lra).
    destruct Rlt_dec; lra.
  - right. destruct (Rlt_dec x 360) as [Hlt | Hge].
    + left. split; [lra |].
      rewrite (Zfloor_eq 0) by (unfold Rdiv; lra).
      destruct Rlt_dec; lra.
    + right. split; [lra |].
      rewrite (Zfloor_eq 1) by (unfold Rdiv; lra).
      destruct Rlt_dec; lra.
Qed.


Lemma rotation_direction_cases (f t : R) :
  -360 < t - f < 360 ->
  (Snake.Blend.rotation_direction f t = 1
   /\ (0 < t - f <= 180 \/ t - f < -180)) \/
  (Snake.Blend.rotation_direction f t = -1
   /\ (-180 <= t - f < 0 \/ 180 < t - f)) \/
  (Snake.Blend.rotation_direction f t = 0 /\ t - f = 0).
Proof.
  intros Hd.
  unfold Snake.Blend.rotation_direction, np_argmin. cbn [map argmin_from].
  replace (t - f + 360.0) with (t - f + 360) by lra.
  replace (t - f - 360.0) with (t - f - 360) by lra.
  set (d := t - f) in *.
  unfold np_sign.
  destruct (Rlt_dec (Rabs (d + 360)) (Rabs d)) as [H10 | H10];
    [destruct (Rlt_dec (Rabs (d - 360)) (Rabs (d + 360))) as [H21 | H21]
    | destruct (Rlt_dec (Rabs (d - 360)) (Rabs d)) as [H20 | H20]]; cbn [nth];
  repeat destruct Rlt_dec;
  repeat match goal with H : context [Rabs] |- _ => revert H end;
  unfold Rabs; repeat destruct Rcase_abs; intros;
  first [ left; split; [reflexivity | lra]
        | right; left; split; [reflexivity | lra]
        | right; right; split; [reflexivity | lra]
        | exfalso; lra ].
Qed.






(** When both colours are the same the rotation is zero: [harmonize(c, c)]
    asks [Hct.from_hct] for the colour's own hue, chroma and tone. *)
Lemma harmonize_same_color
    (H : Snake.Hct.api) (c : Z) (c_hct : Snake.Hct.t H) :
  Snake.Hct.from_int H c = Ok c_hct ->
  0 <= Snake.Hct.hue H c_hct < 360 ->
  Snake.math_utils.difference_degrees (Snake.Hct.hue H c_hct) (Snake.Hct.hue H c_hct) = 0 /\
  Snake.Blend.rotation_direction (Snake.Hct.hue H c_hct) (Snake.Hct.hue H c_hct) = 0 /\
  Snake.Blend.harmonize H c c
  = (r <- Snake.Hct.from_hct H (Snake.Hct.hue H c_hct)
            (Snake.Hct.chroma H c_hct) (Snake.Hct.tone H c_hct) ;;
     Snake.Hct.to_int H r).
Proof.
  intros Hc Hh.
  set (h := Snake.Hct.hue H c_hct) in *.
  assert (Hdd : Snake.math_utils.difference_degrees h h = 0).
  { unfold Snake.math_utils.difference_degrees. split_abs. }
  assert (Hdir : Snake.Blend.rotation_direction h h = 0).
  { destruct (rotation_direction_cases h h) as [[_ Hc'] | [[_ Hc'] | [E _]]];
      [lra | lra | lra | exact E]. }
  split; [exact Hdd |]. split; [exact Hdir |].
  unfold Snake.Blend.harmonize. rewrite Hc. run.
  fold h. unfold Snake.Blend.harmonize_hue. rewrite Hdd, Hdir.
  replace (h + Rmin (0 * 0.5) 15.0 * 0) with h by lra.
  destruct (sanitize_cases h) as [[Hs _] | [[_ ->] | [Hs _]]]; [lra | lra | | lra].
  reflexivity.
Qed.

Lemma harmonize_same_color_witness :
  Snake.math_utils.difference_degrees 27.41 27.41 = 0 /\
  Snake.Blend.rotation_direction 27.41 27.41 = 0 /\
  Snake.Blend.harmonize sample_hct 0xFFFF0000 0xFFFF0000 = Ok 0xFF000000%Z.
Proof.
  assert (H1 : 0 <= 27.41 < 360) by lra.
  exact (harmonize_same_color sample_hct 0xFFFF0000 (27.41, 113.36, 53.24)
           eq_refl H1).
Defined.

(** ** The round trip through XYZ on the product [SRGB_TO_XYZ * v] *)

Lemma byte_cases (k : Z) : (0 <= k <= 255)%Z -> 0 <= IZR k <= 255.
Proof. intros Hk. split; [apply (IZR_le 0) | apply (IZR_le k 255)]; lia. Qed.

Lemma linearized_low (k : Z) :
  (0 <= k <= 10)%Z ->
  Snake.color_utils.linearized k = IZR k / 255.0 / 12.92 * 100.0.
Proof.
  intros Hk. unfold Snake.color_utils.linearized.
  assert (0 <= IZR k <= 10).
  { split; [apply (IZR_le 0) | apply (IZR_le k 10)]; lia. }
  destruct Rle_dec as [_ | H']; [reflexivity | exfalso; apply H'; lra].
Qed.

Lemma linearized_high (k : Z) :
  (11 <= k <= 255)%Z ->
  Snake.color_utils.linearized k
  = Rpower ((IZR k / 255.0 + 0.055) / 1.055) 2.4 * 100.0.
Proof.
  intros Hk. unfold Snake.color_utils.linearized.
  assert (11 <= IZR k <= 255).
  { split; [apply (IZR_le 11) | apply (IZR_le k 255)]; lia. }
  destruct Rle_dec as [H' | _]; [exfalso; lra | reflexivity].
Qed.

Lemma pow5_window (x : R) :
  1 - 1 / 1000000 <= x <= 1 + 1 / 1000000 ->
  1 - 1 / 1000 < x ^ 5 < 1 + 1 / 1000.
Proof.
  intros [Hlo Hhi].
  assert (H1 : (1 - 1 / 1000000) ^ 5 <= x ^ 5) by (apply pow_incr; lra).
  assert (H2 : x ^ 5 <= (1 + 1 / 1000000) ^ 5) by (apply pow_incr; lra).
  split.
  - eapply Rlt_le_trans; [| exact H1]. lra.
  - eapply Rle_lt_trans; [exact H2 |]. lra.
Qed.

(** A perturbed linear value still delinearizes to the channel. *)
Lemma delinearized_near_linearized (k : Z) (l' : R) :
  (0 <= k <= 255)%Z ->
  Rabs (l' - Snake.color_utils.linearized k) <= 1 / 10000000000 ->
  Snake.color_utils.delinearized l' = k.
Proof.
  intros Hk Hnear.
  pose proof (byte_cases k Hk) as Hk'.
  destruct (Z_le_gt_dec k 10) as [Hlow | Hhigh].
  - rewrite linearized_low in Hnear by lia.
    assert (Hk10 : IZR k <= 10) by (apply (IZR_le k 10); lia).
    assert (Hb : - (1 / 10000000000) <= l' - IZR k / 255.0 / 12.92 * 100.0 <= 1 / 10000000000).
    { revert Hnear. unfold Rabs. destruct Rcase_abs; lra. }
    clear Hnear.
    unfold Snake.color_utils.delinearized.
    destruct Rle_dec as [_ | H']; [| exfalso; apply H'; lra].
    rewrite (py_round_near k) by lra.
    apply clamp_int_id. assumption.
  - rewrite linearized_high in Hnear by lia.
    assert (Hk11 : 11 <= IZR k) by (apply (IZR_le 11 k); lia).
    set (V := (IZR k / 255.0 + 0.055) / 1.055) in *.
    set (A := ((IZR k - 1 / 2) / 255 + 0.055) / 1.055).
    set (B := ((IZR k + 1 / 2) / 255 + 0.055) / 1.055).
    assert (HV : (11 / 255 + 0.055) / 1.055 <= V <= 1) by (subst V; lra).
    assert (HA : 0 < A <= V - 18 / 10000) by (subst A V; lra).
    assert (HB : V + 18 / 10000 <= B) by (subst B V; lra).
    clear Hk11 Hk'.
    set (u := Rpower V 2.4) in *.
    assert (Hu5 : u ^ 5 = V ^ 12).
    { subst u. apply Rpower_pow_ratio; [lra | simpl INR; lra]. }
    assert (Hu : 32 / 10000 < u).
    { subst u. apply (Rpower_gt_bound _ _ _ 12 5); [lra | lra | simpl INR; lra |].
      eapply Rlt_le_trans; [| apply pow_incr; split; [| exact (proj1 HV)]; lra].
      clear. lra. }
    clearbody u.
    assert (Hb : - (1 / 10000000000) <= l' - u * 100.0 <= 1 / 10000000000).
    { revert Hnear. clear. unfold Rabs. destruct Rcase_abs; lra. }
    clear Hnear.
    set (w := l' / 100.0).
    assert (Hw : (1 - 1 / 1000000) * u <= w <= (1 + 1 / 1000000) * u)
      by (subst w; clear - Hb Hu; lra).
    assert (Hw0 : 0.0031308 < w) by (clear - Hw Hu; lra).
    clear Hb.
    assert (Hx : 1 - 1 / 1000000 <= w / u <= 1 + 1 / 1000000).
    { clear - Hw Hu. split.
      - apply (Rmult_le_reg_r u); [lra |].
        replace (w / u * u) with w by (field; lra). lra.
      - apply (Rmult_le_reg_r u); [lra |].
        replace (w / u * u) with w by (field; lra). lra. }
    pose proof (pow5_window _ Hx) as Hx5.
    assert (Hw5 : w ^ 5 = V ^ 12 * (w / u) ^ 5).
    { rewrite <- Hu5, <- Rpow_mult_distr. f_equal. field. clear - Hu. lra. }
    assert (HT : 0 < V ^ 11) by (apply pow_lt; clear - HV; lra).
    assert (HA12 : A ^ 12 <= A * V ^ 11).
    { change (A ^ 12) with (A * A ^ 11).
      apply Rmult_le_compat_l; [clear - HA; lra |].
      apply pow_incr. clear - HA. lra. }
    assert (HB12 : B * V ^ 11 <= B ^ 12).
    { change (B ^ 12) with (B * B ^ 11).
      apply Rmult_le_compat_l; [clear - HB HV; lra |].
      apply pow_incr. clear - HB HV. lra. }
    change (V ^ 12) with (V * V ^ 11) in Hw5.
    set (T := V ^ 11) in *. set (X := (w / u) ^ 5) in *.
    set (A12 := A ^ 12) in *. set (B12 := B ^ 12) in *.
    set (W5 := w ^ 5) in *.
    assert (HVT : V * T <= T).
    { rewrite <- (Rmult_1_l T) at 2. apply Rmult_le_compat_r; clear - HV HT; lra. }
    assert (HVT0 : 0 < V * T) by (apply Rmult_lt_0_compat; clear - HV HT; lra).
    assert (HAT : A * T <= (V - 18 / 10000) * T).
    { apply Rmult_le_compat_r; clear - HA HT; lra. }
    assert (HBT : (V + 18 / 10000) * T <= B * T).
    { apply Rmult_le_compat_r; clear - HB HT; lra. }
    assert (HX1 : V * T * (1 - 1 / 1000) < V * T * X).
    { apply Rmult_lt_compat_l; [assumption | apply Hx5]. }
    assert (HX2 : V * T * X < V * T * (1 + 1 / 1000)).
    { apply Rmult_lt_compat_l; [assumption | apply Hx5]. }
    apply delinearized_power_eq; [assumption | exact Hw0 | |].
    + fold w. fold W5. rewrite Hw5. fold A. fold A12.
      clear - HA12 HAT HVT HVT0 HX1. clearbody T X A12 A V. lra.
    + fold w. fold W5. rewrite Hw5. fold B. fold B12.
      clear - HB12 HBT HVT HVT0 HX2. clearbody T X B12 B V. lra.
Qed.

Lemma linearized_range (k : Z) :
  (0 <= k <= 255)%Z -> 0 <= Snake.color_utils.linearized k <= 100.
Proof.
  intros Hk. pose proof (byte_cases k Hk) as Hk'.
  destruct (Z_le_gt_dec k 10) as [Hlow | Hhigh].
  - rewrite linearized_low by lia.
    assert (IZR k <= 10) by (apply (IZR_le k 10); lia). lra.
  - rewrite linearized_high by lia.
    set (V := (IZR k / 255.0 + 0.055) / 1.055).
    assert (HV : 0 < V <= 1) by (subst V; lra).
    assert (H1 : Rpower V 2.4 <= 1).
    { rewrite <- (Rpower_1_l 2.4). apply Rle_Rpower_l; lra. }
    pose proof (Rpower_pos V 2.4). lra.
Qed.

Lemma land_255 (x : Z) : Z.land x 255 = (x mod 256)%Z.
Proof. change 255%Z with (Z.ones 8). rewrite Z.land_ones by lia. reflexivity. Qed.

Lemma opaque_argb_channels (c : Z) :
  (0xFF000000 <= c <= 0xFFFFFFFF)%Z ->
  let r := Snake.color_utils.red_from_argb c in
  let g := Snake.color_utils.green_from_argb c in
  let b := Snake.color_utils.blue_from_argb c in
  (0 <= r <= 255)%Z /\ (0 <= g <= 255)%Z /\ (0 <= b <= 255)%Z /\
  c = (4278190080 + 65536 * r + 256 * g + b)%Z.
Proof.
  intros Hc.
  unfold Snake.color_utils.red_from_argb, Snake.color_utils.green_from_argb,
    Snake.color_utils.blue_from_argb.
  rewrite !land_255, !Z.shiftr_div_pow2 by lia.
  change (2 ^ 8)%Z with 256%Z. change (2 ^ 16)%Z with (256 * 256)%Z.
  rewrite <- Z.div_div by lia.
  pose proof (Z.div_mod c 256 ltac:(lia)) as H1.
  pose proof (Z.div_mod (c / 256) 256 ltac:(lia)) as H2.
  pose proof (Z.div_mod (c / 256 / 256) 256 ltac:(lia)) as H3.
  pose proof (Z.mod_pos_bound c 256 ltac:(lia)).
  pose proof (Z.mod_pos_bound (c / 256) 256 ltac:(lia)).
  pose proof (Z.mod_pos_bound (c / 256 / 256) 256 ltac:(lia)).
  assert (c / 256 / 256 / 256 = 255)%Z.
  { rewrite !Z.div_div by lia. symmetry.
    apply Z.div_unique with (r := (c - 255 * 16777216)%Z); lia. }
  cbv zeta. repeat split; lia.
Qed.

(** The camelCase [xyzFromArgb] is the product [SRGB_TO_XYZ * v] of the
    matrix and the linearized channels. *)
Lemma xyzFromArgb_product (argb : Z) :
  Camel.color_utils.xyzFromArgb argb
  = np_dot_mat_vec Snake.color_utils.SRGB_TO_XYZ
      (Arr3 (Snake.color_utils.linearized (Snake.color_utils.red_from_argb argb))
            (Snake.color_utils.linearized (Snake.color_utils.green_from_argb argb))
            (Snake.color_utils.linearized (Snake.color_utils.blue_from_argb argb))).
Proof.
  unfold Camel.color_utils.xyzFromArgb, Camel.math_utils.matrixMultiply, np_dot_mat_vec.
  cbv zeta.
  change Camel.color_utils.redFromArgb with Snake.color_utils.red_from_argb.
  change Camel.color_utils.greenFromArgb with Snake.color_utils.green_from_argb.
  change Camel.color_utils.blueFromArgb with Snake.color_utils.blue_from_argb.
  change Camel.color_utils.linearized with Snake.color_utils.linearized.
  cbn [at0 at1 at2 Camel.color_utils.SRGB_TO_XYZ Snake.color_utils.SRGB_TO_XYZ].
  f_equal; lra.
Qed.

Lemma argb_from_xyz_of_linear (c : Z) :
  (0xFF000000 <= c <= 0xFFFFFFFF)%Z ->
  let xyz := np_dot_mat_vec Snake.color_utils.SRGB_TO_XYZ
               (Arr3 (Snake.color_utils.linearized (Snake.color_utils.red_from_argb c))
                     (Snake.color_utils.linearized (Snake.color_utils.green_from_argb c))
                     (Snake.color_utils.linearized (Snake.color_utils.blue_from_argb c))) in
  Snake.color_utils.argb_from_xyz (at0 xyz) (at1 xyz) (at2 xyz) = c.
Proof.
  intros Hc.
  destruct (opaque_argb_channels c Hc) as (Hr & Hg & Hb & Hdec).
  cbv zeta in *.
  unfold Snake.color_utils.argb_from_xyz, np_dot_mat_vec.
  set (r := Snake.color_utils.red_from_argb c) in *.
  set (g := Snake.color_utils.green_from_argb c) in *.
  set (b := Snake.color_utils.blue_from_argb c) in *.
  pose proof (linearized_range r Hr) as Hlr.
  pose proof (linearized_range g Hg) as Hlg.
  pose proof (linearized_range b Hb) as Hlb.
  set (lr := Snake.color_utils.linearized r) in *.
  set (lg := Snake.color_utils.linearized g) in *.
  set (lb := Snake.color_utils.linearized b) in *.
  cbn [at0 at1 at2 Snake.color_utils.XYZ_TO_SRGB Snake.color_utils.SRGB_TO_XYZ].
  rewrite (delinearized_near_linearized r), (delinearized_near_linearized g),
    (delinearized_near_linearized b); try assumption.
  - rewrite argb_from_rgb_bytes by assumption. symmetry. exact Hdec.
  - fold lb. clearbody lr lg lb. clear - Hlr Hlg Hlb.
    unfold Rabs. destruct Rcase_abs; lra.
  - fold lg. clearbody lr lg lb. clear - Hlr Hlg Hlb.
    unfold Rabs. destruct Rcase_abs; lra.
  - fold lr. clearbody lr lg lb. clear - Hlr Hlg Hlb.
    unfold Rabs. destruct Rcase_abs; lra.
Qed.

(** The round trip ARGB -> XYZ -> ARGB is the identity on every opaque ARGB
    colour when the XYZ is that of the camelCase [xyzFromArgb], which takes
    the product [SRGB_TO_XYZ * v]: the snake_case [argb_from_xyz] applied to
    the three components of [xyzFromArgb(c)] is [c].  The product of the two
    matrices differs from the identity by less than 1e-16 per entry, which
    moves no channel across a rounding boundary (floats read as real
    numbers). *)
Theorem xyz_round_trip_across_trees (c : Z) :
  (0xFF000000 <= c <= 0xFFFFFFFF)%Z ->
  let xyz := Camel.color_utils.xyzFromArgb c in
  Snake.color_utils.argb_from_xyz (at0 xyz) (at1 xyz) (at2 xyz) = c.
Proof.
  intros Hc. cbv zeta. rewrite xyzFromArgb_product.
  exact (argb_from_xyz_of_linear c Hc).
Qed.

Lemma xyz_round_trip_across_trees_witness :
  let xyz := Camel.color_utils.xyzFromArgb 0xFF336699 in
  Snake.color_utils.argb_from_xyz (at0 xyz) (at1 xyz) (at2 xyz) = 0xFF336699%Z.
Proof. apply (xyz_round_trip_across_trees 0xFF336699). lia. Defined.

(** ** [math.sqrt] and [math.atan2] at zero *)

Lemma math_sqrt_zero (x : R) : x = 0 -> math_sqrt x = Ok 0.
Proof.
  intros ->. unfold math_sqrt. destruct Rlt_dec; [lra |]. rewrite sqrt_0. reflexivity.
Qed.

Lemma math_atan2_0 : math_atan2 0 0 = 0.
Proof. unfold math_atan2. repeat (destruct Rlt_dec; [lra |]). reflexivity. Qed.

(** ** [Cam16.distance] *)

(** The distance of a CAM16 value to itself is [0]. *)
Theorem distance_self (self : Snake.cam16.Cam16) :
  Snake.cam16.distance self self = Ok 0.
Proof.
  unfold Snake.cam16.distance. cbv zeta.
  rewrite math_sqrt_zero by lra. run.
  rewrite py_pow_zero by lra. run.
  f_equal. lra.
Qed.

(** ** The colours [Cam16.viewed] returns *)

Lemma bind_ok {A B : Type} (m : py A) (k : A -> py B) (b : B) :
  bind m k = Ok b -> exists a, m = Ok a /\ k a = Ok b.
Proof.
  destruct m as [a | e]; cbn; intros H; [exists a; auto | discriminate].
Qed.

(** Whenever [Cam16.viewed] (hence [to_int]) returns, the result is an
    opaque ARGB integer with channels in [[0, 255]]. *)
Theorem viewed_result_opaque
    (self : Snake.cam16.Cam16) (vc : Snake.ViewingConditions.t) (argb : Z) :
  Snake.cam16.viewed self vc = Ok argb -> opaque_bytes argb.
Proof.
  unfold Snake.cam16.viewed. cbv zeta. intros H.
  repeat match type of H with
  | bind _ _ = Ok _ =>
      apply bind_ok in H; destruct H as (? & _ & H)
  end.
  injection H as <-. apply argb_from_xyz_opaque.
Qed.

Lemma viewed_result_opaque_witness : opaque_bytes 0xFF000000.
Proof.
  exact (viewed_result_opaque zero_cam unit_conditions 0xFF000000
           (viewed_black zero_cam unit_conditions unit_conditions_positive eq_refl)).
Defined.

(** ** Channels of 64-bit integers *)

Local Open Scope Z_scope.

Lemma byte_of_land (x : Z) : 0 <= Z.land x 255 <= 255.
Proof. rewrite land_255. pose proof (Z.mod_pos_bound x 256). lia. Qed.

Lemma argb_from_rgb_land (r g b : Z) :
  Snake.color_utils.argb_from_rgb r g b
  = Snake.color_utils.argb_from_rgb (Z.land r 255) (Z.land g 255) (Z.land b 255).
Proof.
  unfold Snake.color_utils.argb_from_rgb.
  rewrite !(land_255 (Z.land _ 255)), !land_255, !Z.mod_mod by lia. reflexivity.
Qed.

(** [argb_from_rgb] keeps the low eight bits of each argument, whatever
    64-bit integers it is given: the result is the opaque colour whose
    channels are [red mod 256], [green mod 256] and [blue mod 256], the four
    accessors read exactly these bytes back, [is_opaque] holds of it, and
    the camelCase [argbFromRgb] returns the same integer. *)
Theorem argb_from_rgb_masks (red green blue : Z) :
  int64 red -> int64 green -> int64 blue ->
  let c := Snake.color_utils.argb_from_rgb red green blue in
  c = 0xFF000000 + 65536 * (red mod 256) + 256 * (green mod 256) + blue mod 256 /\
  Snake.color_utils.alpha_from_argb c = 255 /\
  Snake.color_utils.red_from_argb c = red mod 256 /\
  Snake.color_utils.green_from_argb c = green mod 256 /\
  Snake.color_utils.blue_from_argb c = blue mod 256 /\
  Snake.color_utils.is_opaque c = true /\
  Camel.color_utils.argbFromRgb red green blue = c.
Proof.
  intros _ _ _ c.
  assert (Hr := byte_of_land red). assert (Hg := byte_of_land green).
  assert (Hb := byte_of_land blue).
  assert (Ec : c = 4278190080 + 65536 * Z.land red 255 + 256 * Z.land green 255
                   + Z.land blue 255).
  { unfold c. rewrite argb_from_rgb_land. apply argb_from_rgb_bytes; assumption. }
  destruct (unpack_bytes _ _ _ Hr Hg Hb) as (Ua & Ur & Ug & Ub).
  cbv zeta in Ua, Ur, Ug, Ub. rewrite <- Ec in Ua, Ur, Ug, Ub.
  rewrite <- !land_255.
  unfold Snake.color_utils.is_opaque, Snake.color_utils.alpha_from_argb,
    Snake.color_utils.red_from_argb, Snake.color_utils.green_from_argb,
    Snake.color_utils.blue_from_argb.
  rewrite Ua, Ur, Ug, Ub.
  repeat split; try reflexivity. exact Ec.
Qed.

Lemma argb_from_rgb_masks_witness :
  let c := Snake.color_utils.argb_from_rgb 300 (-1) 255 in
  c = 0xFF2CFFFF /\
  Snake.color_utils.alpha_from_argb c = 255 /\
  Snake.color_utils.red_from_argb c = 44 /\
  Snake.color_utils.green_from_argb c = 255 /\
  Snake.color_utils.blue_from_argb c = 255 /\
  Snake.color_utils.is_opaque c = true /\
  Camel.color_utils.argbFromRgb 300 (-1) 255 = c.
Proof.
  apply (argb_from_rgb_masks 300 (-1) 255); unfold int64; lia.
Defined.

Lemma low24_of_channels (argb : Z) :
  65536 * Snake.color_utils.red_from_argb argb
  + 256 * Snake.color_utils.green_from_argb argb
  + Snake.color_utils.blue_from_argb argb = argb mod 16777216.
Proof.
  unfold Snake.color_utils.red_from_argb, Snake.color_utils.green_from_argb,
    Snake.color_utils.blue_from_argb.
  rewrite !land_255, !Z.shiftr_div_pow2 by lia.
  change (2 ^ 16) with 65536. change (2 ^ 8) with 256.
  Z.div_mod_to_equations. lia.
Qed.

(** Rebuilding a colour from its three channels forgets the alpha byte and
    nothing else: [argb_from_rgb] of the channels of [argb] is
    [0xFF000000 + argb mod 0x1000000], for every 64-bit integer.
    [is_opaque] says that the alpha byte is 255; on the integers of 32 bits
    this is [0xFF000000 <= argb], and there an opaque colour is rebuilt
    exactly. *)
Theorem channels_rebuild_color (argb : Z) :
  int64 argb ->
  let r := Snake.color_utils.red_from_argb argb in
  let g := Snake.color_utils.green_from_argb argb in
  let b := Snake.color_utils.blue_from_argb argb in
  Snake.color_utils.argb_from_rgb r g b = 0xFF000000 + argb mod 0x1000000 /\
  (Snake.color_utils.is_opaque argb = true <->
   Snake.color_utils.alpha_from_argb argb = 255) /\
  (0 <= argb < 0x100000000 ->
   (Snake.color_utils.is_opaque argb = true <-> 0xFF000000 <= argb)) /\
  (0 <= argb < 0x100000000 -> Snake.color_utils.is_opaque argb = true ->
   Snake.color_utils.argb_from_rgb r g b = argb) /\
  Camel.color_utils.isOpaque argb = Snake.color_utils.is_opaque argb.
Proof.
  intros _ r g b.
  assert (Hr : 0 <= r <= 255) by apply byte_of_land.
  assert (Hg : 0 <= g <= 255) by apply byte_of_land.
  assert (Hb : 0 <= b <= 255) by apply byte_of_land.
  assert (Ha : 0 <= Snake.color_utils.alpha_from_argb argb <= 255) by apply byte_of_land.
  assert (E : Snake.color_utils.argb_from_rgb r g b = 0xFF000000 + argb mod 0x1000000).
  { rewrite argb_from_rgb_bytes by assumption.
    pose proof (low24_of_channels argb). fold r g b in H.
    change 0xFF000000 with 4278190080. change 0x1000000 with 16777216. lia. }
  assert (Hop : Snake.color_utils.is_opaque argb = true <->
                Snake.color_utils.alpha_from_argb argb = 255).
  { unfold Snake.color_utils.is_opaque. rewrite Z.geb_le. lia. }
  assert (Hal : 0 <= argb < 0x100000000 ->
                (Snake.color_utils.alpha_from_argb argb = 255 <-> 0xFF000000 <= argb)).
  { intros Hc. unfold Snake.color_utils.alpha_from_argb.
    rewrite land_255, Z.shiftr_div_pow2 by lia.
    change (2 ^ 24) with 16777216. change 0xFF000000 with 4278190080.
    change 0x100000000 with 4294967296 in Hc.
    Z.div_mod_to_equations. lia. }
  split; [exact E |]. split; [exact Hop |]. split; [| split].
  - intros Hc. rewrite Hop. apply Hal, Hc.
  - intros Hc Ho. rewrite E. apply Hop in Ho. apply (Hal Hc) in Ho.
    change 0xFF000000 with 4278190080 in *. change 0x1000000 with 16777216.
    change 0x100000000 with 4294967296 in Hc.
    Z.div_mod_to_equations. lia.
  - reflexivity.
Qed.

Lemma channels_rebuild_color_witness :
  Snake.color_utils.argb_from_rgb
    (Snake.color_utils.red_from_argb 0xFF336699)
    (Snake.color_utils.green_from_argb 0xFF336699)
    (Snake.color_utils.blue_from_argb 0xFF336699) = 0xFF336699.
Proof.
  assert (H64 : int64 0xFF336699) by (unfold int64; lia).
  apply (proj1 (proj2 (proj2 (proj2 (channels_rebuild_color 0xFF336699 H64)))));
    [lia | reflexivity].
Defined.

(** On a 64-bit [val] and a shift count [0 <= n < 64], [rshift] is the
    unsigned shift of a 32-bit pattern only from [-0x100000000] on: there
    [rshift val n] is [(val mod 2^32) >> n], between [0] and [2^32]; below
    [-0x100000000] the result is still negative. *)
Theorem rshift_unsigned (val n : Z) :
  int64 val -> 0 <= n < 64 ->
  (- 0x100000000 <= val < 0x100000000 ->
   Snake.color_utils.rshift val n = Z.shiftr (val mod 0x100000000) n /\
   0 <= Snake.color_utils.rshift val n < 0x100000000) /\
  (val < - 0x100000000 -> Snake.color_utils.rshift val n < 0) /\
  Camel.color_utils.rshift val n = Snake.color_utils.rshift val n.
Proof.
  intros _ [Hn _]. unfold Snake.color_utils.rshift.
  change 0x100000000 with 4294967296.
  split; [| split].
  - intros Hv. destruct (val >=? 0) eqn:E.
    + apply Z.geb_le in E. rewrite Z.mod_small by lia.
      split; [reflexivity |]. rewrite Z.shiftr_div_pow2 by lia.
      assert (0 < 2 ^ n) by (apply Z.pow_pos_nonneg; lia).
      split; [apply Z.div_pos; lia |].
      apply Z.le_lt_trans with val; [| lia].
      apply Z.div_le_upper_bound; nia.
    + assert (val < 0) by (destruct (Z.geb_spec val 0); [discriminate | lia]).
      assert (Em : val mod 4294967296 = val + 4294967296).
      { symmetry. apply Z.mod_unique with (q := -1); lia. }
      rewrite Em. split; [reflexivity |]. rewrite Z.shiftr_div_pow2 by lia.
      assert (0 < 2 ^ n) by (apply Z.pow_pos_nonneg; lia).
      split; [apply Z.div_pos; lia |].
      apply Z.le_lt_trans with (val + 4294967296); [| lia].
      apply Z.div_le_upper_bound; nia.
  - intros Hv. destruct (val >=? 0) eqn:E.
    + apply Z.geb_le in E. lia.
    + apply Z.shiftr_neg. lia.
  - reflexivity.
Qed.

Lemma rshift_unsigned_witness :
  Snake.color_utils.rshift (-1) 0 = Z.shiftr ((-1) mod 0x100000000) 0 /\
  0 <= Snake.color_utils.rshift (-1) 0 < 0x100000000.
Proof.
  assert (H64 : int64 (-1)) by (unfold int64; lia).
  apply (proj1 (rshift_unsigned (-1) 0 H64 ltac:(lia))). lia.
Defined.

(** On a 64-bit integer [sanitize_degrees_int] returns [degrees mod 360]: a
    value in [[0, 360)] that differs from the argument by a multiple of 360;
    it is idempotent, and has period 360 where [degrees + 360] is a 64-bit
    integer too.  On an integer of magnitude up to 2^53, which a float
    holds exactly, the float version [sanitize_degrees_double] returns the
    same number.  The camelCase [sanitizeDegreesInt] agrees. *)
Theorem sanitize_degrees_int_range (degrees : Z) :
  int64 degrees ->
  let r := Snake.math_utils.sanitize_degrees_int degrees in
  0 <= r < 360 /\
  r = degrees mod 360 /\
  (exists k, degrees = r + 360 * k) /\
  Snake.math_utils.sanitize_degrees_int r = r /\
  (int64 (degrees + 360) -> Snake.math_utils.sanitize_degrees_int (degrees + 360) = r) /\
  (Z.abs degrees <= 2 ^ 53 ->
   Snake.math_utils.sanitize_degrees_double (IZR degrees) = IZR r) /\
  Camel.math_utils.sanitizeDegreesInt degrees = r.
Proof.
  intros _ r.
  assert (Hm := Z.mod_pos_bound degrees 360 ltac:(lia)).
  assert (Er : r = degrees mod 360).
  { unfold r, Snake.math_utils.sanitize_degrees_int. cbv zeta.
    destruct (Z.ltb_spec (degrees mod 360) 0); lia. }
  split; [lia |]. split; [exact Er |]. split; [| split; [| split; [| split]]].
  - exists (degrees / 360). rewrite Er. Z.div_mod_to_equations. lia.
  - unfold Snake.math_utils.sanitize_degrees_int. cbv zeta.
    rewrite (Z.mod_small r) by lia. destruct (Z.ltb_spec r 0); lia.
  - intros _. unfold Snake.math_utils.sanitize_degrees_int. cbv zeta.
    replace (degrees + 360) with (degrees + 1 * 360) by lia.
    rewrite Z.mod_add by lia. fold (Snake.math_utils.sanitize_degrees_int degrees).
    reflexivity.
  - intros _. unfold Snake.math_utils.sanitize_degrees_double, py_fmod. cbv zeta.
    assert (Ef : Zfloor (IZR degrees / 360.0) = degrees / 360).
    { apply Zfloor_eq.
      assert (Hd : degrees = 360 * (degrees / 360) + degrees mod 360)
        by (apply Z.div_mod; lia).
      assert (HdR : (IZR degrees = 360 * IZR (degrees / 360) + IZR (degrees mod 360))%R).
      { rewrite Hd at 1. rewrite plus_IZR, mult_IZR. reflexivity. }
      assert (0 <= IZR (degrees mod 360) < 360)%R.
      { split; [apply IZR_le; lia | apply IZR_lt; lia]. }
      rewrite HdR. split.
      - apply Rmult_le_reg_r with 360%R; [lra |]. unfold Rdiv. field_simplify; lra.
      - apply Rmult_lt_reg_r with 360%R; [lra |]. unfold Rdiv. field_simplify; lra. }
    rewrite Ef.
    assert (HR : (IZR degrees - 360.0 * IZR (degrees / 360))%R = IZR r).
    { rewrite Er.
      replace (degrees mod 360) with (degrees - 360 * (degrees / 360))
        by (Z.div_mod_to_equations; lia).
      rewrite minus_IZR, mult_IZR. lra. }
    rewrite HR. destruct (Rlt_dec (IZR r) 0) as [Hneg |]; [| reflexivity].
    exfalso. apply (Rlt_not_le _ _ Hneg). apply IZR_le. lia.
  - reflexivity.
Qed.

Lemma sanitize_degrees_int_range_witness :
  Snake.math_utils.sanitize_degrees_int (-30) = 330 /\
  Snake.math_utils.sanitize_degrees_int (-30 + 360) = 330 /\
  Snake.math_utils.sanitize_degrees_double (IZR (-30)) = IZR 330.
Proof.
  assert (H64 : int64 (-30)) by (unfold int64; lia).
  pose proof (sanitize_degrees_int_range (-30) H64) as (_ & Hr & _ & _ & Hp & Hf & _).
  split; [exact Hr |].
  split; [apply Hp; unfold int64; lia | apply Hf; lia].
Defined.

Local Close Scope Z_scope.

(** ** Degrees *)

(** With floats read as real numbers, [sanitize_degrees_double] returns a
    value in [[0, 360)] that differs from the argument by a multiple of 360;
    it is idempotent, has period 360 and leaves the values of [[0, 360)]
    as they are. *)
Theorem sanitize_degrees_double_range (degrees : R) :
  let r := Snake.math_utils.sanitize_degrees_double degrees in
  0 <= r < 360 /\
  (exists k : Z, degrees = r + 360 * IZR k) /\
  Snake.math_utils.sanitize_degrees_double r = r /\
  Snake.math_utils.sanitize_degrees_double (degrees + 360) = r /\
  (0 <= degrees < 360 -> r = degrees).
Proof.
  intros r.
  pose proof (Zfloor_bound (degrees / 360.0)) as [Hlo Hhi].
  assert (Er : r = degrees - 360 * IZR (Zfloor (degrees / 360.0))).
  { unfold r, Snake.math_utils.sanitize_degrees_double, py_fmod. cbv zeta.
    destruct Rlt_dec as [Hneg |]; lra. }
  assert (Hr : 0 <= r < 360) by (rewrite Er; lra).
  assert (Hid : forall x, 0 <= x < 360 -> Snake.math_utils.sanitize_degrees_double x = x).
  { intros x Hx. unfold Snake.math_utils.sanitize_degrees_double, py_fmod. cbv zeta.
    rewrite (Zfloor_eq 0 (x / 360.0)) by lra.
    destruct Rlt_dec; lra. }
  split; [exact Hr |]. split; [| split; [| split]].
  - exists (Zfloor (degrees / 360.0)). lra.
  - apply Hid, Hr.
  - unfold Snake.math_utils.sanitize_degrees_double, py_fmod. cbv zeta.
    assert (Ef : Zfloor ((degrees + 360) / 360.0) = (Zfloor (degrees / 360.0) + 1)%Z).
    { apply Zfloor_eq. rewrite plus_IZR. lra. }
    rewrite Ef, plus_IZR.
    destruct Rlt_dec as [Hneg |]; lra.
  - intros Hd. unfold r. apply Hid, Hd.
Qed.

(** On hues of [[0, 360)], [difference_degrees] is the distance on the
    circle: the smaller of [|a - b|] and [360 - |a - b|], zero exactly for
    equal hues, and it satisfies the triangle inequality. *)
Theorem difference_degrees_metric (a b c : R) :
  0 <= a < 360 -> 0 <= b < 360 -> 0 <= c < 360 ->
  Snake.math_utils.difference_degrees a c
  <= Snake.math_utils.difference_degrees a b + Snake.math_utils.difference_degrees b c /\
  Snake.math_utils.difference_degrees a b = Rmin (Rabs (a - b)) (360 - Rabs (a - b)) /\
  (Snake.math_utils.difference_degrees a b = 0 <-> a = b).
Proof.
  intros Ha Hb Hc. unfold Snake.math_utils.difference_degrees, Rmin.
  split; [| split; [| split]].
  - split_abs.
  - unfold Rabs. repeat destruct Rcase_abs; destruct Rle_dec; lra.
  - split_abs.
  - intros ->. split_abs.
Qed.

Lemma difference_degrees_metric_witness :
  Snake.math_utils.difference_degrees 350 100
  <= Snake.math_utils.difference_degrees 350 10 + Snake.math_utils.difference_degrees 10 100 /\
  Snake.math_utils.difference_degrees 350 10 = Rmin (Rabs (350 - 10)) (360 - Rabs (350 - 10)) /\
  (Snake.math_utils.difference_degrees 350 10 = 0 <-> 350 = 10).
Proof. apply (difference_degrees_metric 350 10 100); lra. Defined.

(** ** [Blend.rotation_direction] *)

(** [Blend.rotation_direction] returns 1, 0 or -1 for every pair of numbers;
    swapping the arguments negates the result; and the result is 0 exactly
    when the two arguments differ by 0, 360 or -360. *)
Theorem rotation_direction_antisymmetric (from_v to : R) :
  Snake.Blend.rotation_direction to from_v = - Snake.Blend.rotation_direction from_v to /\
  (Snake.Blend.rotation_direction from_v to = 1
   \/ Snake.Blend.rotation_direction from_v to = 0
   \/ Snake.Blend.rotation_direction from_v to = -1) /\
  (Snake.Blend.rotation_direction from_v to = 0 <->
   to - from_v = 0 \/ to - from_v = 360 \/ to - from_v = -360).
Proof.
  unfold Snake.Blend.rotation_direction. cbv zeta.
  cbn [map np_argmin argmin_from].
  set (d := to - from_v).
  replace (from_v - to) with (- d) by (unfold d; ring).
  clearbody d. clear.
  unfold Rabs.
  repeat (destruct Rcase_abs; try (exfalso; lra));
    repeat (destruct Rlt_dec; try (exfalso; lra); cbn [argmin_from nth]);
    unfold np_sign;
    repeat (destruct Rlt_dec; try (exfalso; lra));
    (split; [lra | split; [lra | split; lra]]).
Qed.

(** ** [string_utils.py]: colours as hexadecimal strings *)

Local Open Scope Z_scope.

Lemma byte_forall (f : Z -> bool) :
  forallb f (map Z.of_nat (seq 0 256)) = true ->
  forall n, 0 <= n <= 255 -> f n = true.
Proof.
  intros H n Hn. rewrite forallb_forall in H. apply H.
  apply in_map_iff. exists (Z.to_nat n). split; [lia |].
  apply in_seq. lia.
Qed.

Lemma format_02x_byte (n : Z) :
  0 <= n <= 255 ->
  exists a b,
    format_02x n = String a (String b EmptyString) /\
    Ascii.eqb a "#" = false /\ Ascii.eqb b "#" = false /\
    int_base16 (String a (String b EmptyString)) = Some n.
Proof.
  intros Hn.
  pose (f := fun n =>
    match format_02x n with
    | String a (String b EmptyString) =>
        (negb (Ascii.eqb a "#") && negb (Ascii.eqb b "#")
         && match int_base16 (String a (String b EmptyString)) with
            | Some m => m =? n
            | None => false
            end)%bool
    | _ => false
    end).
  assert (H : f n = true) by (apply byte_forall; [vm_compute; reflexivity | exact Hn]).
  unfold f in H.
  destruct (format_02x n) as [| a [| b [| ? ?]]]; try discriminate.
  exists a, b.
  apply andb_prop in H. destruct H as [H H3].
  apply andb_prop in H. destruct H as [H1 H2].
  apply negb_true_iff in H1, H2.
  destruct (int_base16 (String a (String b EmptyString))) as [m |]; [| discriminate].
  apply Z.eqb_eq in H3. subst m. auto.
Qed.

Lemma argb_from_hex_six (a1 b1 a2 b2 a3 b3 : ascii) (r g b : Z) :
  Ascii.eqb a1 "#" = false -> Ascii.eqb b1 "#" = false ->
  Ascii.eqb a2 "#" = false -> Ascii.eqb b2 "#" = false ->
  Ascii.eqb a3 "#" = false -> Ascii.eqb b3 "#" = false ->
  int_base16 (String a1 (String b1 EmptyString)) = Some r ->
  int_base16 (String a2 (String b2 EmptyString)) = Some g ->
  int_base16 (String a3 (String b3 EmptyString)) = Some b ->
  Snake.string_utils.argb_from_hex
    (String "#" (String a1 (String b1 (String a2 (String b2
       (String a3 (String b3 EmptyString)))))))
  = Snake.string_utils.Returns (Snake.color_utils.argb_from_rgb r g b).
Proof.
  intros E1 E2 E3 E4 E5 E6 Hr Hg Hb.
  unfold Snake.string_utils.argb_from_hex.
  cbn [str_remove]. rewrite E1, E2, E3, E4, E5, E6.
  cbn [Ascii.eqb Bool.eqb String.length Nat.eqb negb andb str_slice substring Nat.sub].
  unfold Snake.string_utils.parse_int_hex. rewrite Hr, Hg, Hb.
  reflexivity.
Qed.

(** [argb_from_hex] inverts [hex_from_argb] up to the alpha byte: for a
    64-bit integer [argb], [hex_from_argb(argb)] has seven characters, and
    parsing it returns [0xFF000000 + argb mod 0x1000000], which is [argb]
    itself for an opaque colour. *)
Theorem hex_round_trip (argb : Z) :
  int64 argb ->
  String.length (Snake.string_utils.hex_from_argb argb) = 7%nat /\
  Snake.string_utils.argb_from_hex (Snake.string_utils.hex_from_argb argb)
  = Snake.string_utils.Returns (0xFF000000 + argb mod 0x1000000) /\
  (0xFF000000 <= argb <= 0xFFFFFFFF ->
   Snake.string_utils.argb_from_hex (Snake.string_utils.hex_from_argb argb)
   = Snake.string_utils.Returns argb).
Proof.
  intros _.
  assert (Hr := byte_of_land (Z.shiftr argb 16)).
  assert (Hg := byte_of_land (Z.shiftr argb 8)).
  assert (Hb := byte_of_land argb).
  fold (Snake.color_utils.red_from_argb argb) in Hr.
  fold (Snake.color_utils.green_from_argb argb) in Hg.
  fold (Snake.color_utils.blue_from_argb argb) in Hb.
  destruct (format_02x_byte _ Hr) as (a1 & b1 & F1 & A1 & B1 & P1).
  destruct (format_02x_byte _ Hg) as (a2 & b2 & F2 & A2 & B2 & P2).
  destruct (format_02x_byte _ Hb) as (a3 & b3 & F3 & A3 & B3 & P3).
  assert (Hrt : Snake.string_utils.argb_from_hex (Snake.string_utils.hex_from_argb argb)
                = Snake.string_utils.Returns (0xFF000000 + argb mod 0x1000000)).
  { unfold Snake.string_utils.hex_from_argb. cbv zeta. rewrite F1, F2, F3.
    cbn [append].
    rewrite (argb_from_hex_six _ _ _ _ _ _ _ _ _ A1 B1 A2 B2 A3 B3 P1 P2 P3).
    rewrite argb_from_rgb_bytes by assumption.
    f_equal. pose proof (low24_of_channels argb). lia. }
  split; [| split].
  - unfold Snake.string_utils.hex_from_argb. cbv zeta. rewrite F1, F2, F3. reflexivity.
  - exact Hrt.
  - intros Hc. rewrite Hrt. f_equal.
    change 0x1000000 with 16777216. change 0xFF000000 with 4278190080 in *.
    change 0xFFFFFFFF with 4294967295 in Hc.
    Z.div_mod_to_equations. lia.
Qed.

Lemma hex_round_trip_witness :
  Snake.string_utils.argb_from_hex (Snake.string_utils.hex_from_argb 0xFF336699)
  = Snake.string_utils.Returns 0xFF336699.
Proof.
  assert (H64 : int64 0xFF336699) by (unfold int64; lia).
  apply (proj2 (proj2 (hex_round_trip 0xFF336699 H64))). lia.
Defined.

Lemma lower_hex_pair (a b : ascii) :
  lower_hex_digit a = true -> lower_hex_digit b = true ->
  exists n, 0 <= n <= 255 /\
    Ascii.eqb a "#" = false /\ Ascii.eqb b "#" = false /\
    int_base16 (String a (String b EmptyString)) = Some n /\
    format_02x n = String a (String b EmptyString).
Proof.
  unfold lower_hex_digit. cbn [list_ascii_of_string existsb].
  intros Ha Hb.
  repeat (apply orb_prop in Ha; destruct Ha as [Ha | Ha]);
    try discriminate; apply Ascii.eqb_eq in Ha; subst a;
    repeat (apply orb_prop in Hb; destruct Hb as [Hb | Hb]);
    try discriminate; apply Ascii.eqb_eq in Hb; subst b;
    (eexists; split; [| split; [reflexivity | split; [reflexivity | split;
       [vm_compute; reflexivity | vm_compute; reflexivity]]]]; lia).
Qed.

(** [hex_from_argb] inverts [argb_from_hex] on the strings it writes: for a
    [#] followed by six lower-case hexadecimal digits, [argb_from_hex]
    returns an opaque colour whose [hex_from_argb] is that string. *)
Theorem hex_canonical_round_trip (a1 b1 a2 b2 a3 b3 : ascii) :
  forallb lower_hex_digit [a1; b1; a2; b2; a3; b3] = true ->
  let hex := String "#" (String a1 (String b1 (String a2 (String b2
               (String a3 (String b3 EmptyString)))))) in
  exists argb,
    Snake.string_utils.argb_from_hex hex = Snake.string_utils.Returns argb /\
    0xFF000000 <= argb <= 0xFFFFFFFF /\
    Snake.string_utils.hex_from_argb argb = hex.
Proof.
  intros H hex. cbn [forallb] in H.
  repeat (apply andb_prop in H; destruct H as [? H]).
  destruct (lower_hex_pair a1 b1) as (r & Hr & A1 & B1 & P1 & F1); try assumption.
  destruct (lower_hex_pair a2 b2) as (g & Hg & A2 & B2 & P2 & F2); try assumption.
  destruct (lower_hex_pair a3 b3) as (b & Hb & A3 & B3 & P3 & F3); try assumption.
  exists (Snake.color_utils.argb_from_rgb r g b).
  split; [| split].
  - apply argb_from_hex_six; assumption.
  - rewrite argb_from_rgb_bytes by assumption.
    change 0xFF000000 with 4278190080. change 0xFFFFFFFF with 4294967295. lia.
  - rewrite argb_from_rgb_bytes by assumption.
    unfold Snake.string_utils.hex_from_argb.
    destruct (unpack_bytes r g b Hr Hg Hb) as (_ & Er & Eg & Eb).
    unfold Snake.color_utils.red_from_argb, Snake.color_utils.green_from_argb,
      Snake.color_utils.blue_from_argb.
    cbv zeta in Er, Eg, Eb. cbv zeta. rewrite Er, Eg, Eb, F1, F2, F3. reflexivity.
Qed.

Lemma hex_canonical_round_trip_witness :
  exists argb,
    Snake.string_utils.argb_from_hex "#3366cc" = Snake.string_utils.Returns argb /\
    0xFF000000 <= argb <= 0xFFFFFFFF /\
    Snake.string_utils.hex_from_argb argb = "#3366cc"%string.
Proof.
  apply (hex_canonical_round_trip "3" "3" "6" "6" "c" "c"). reflexivity.
Defined.

Lemma argb_from_hex_packs (r g b : Z) :
  0xFF000000
  <= Snake.color_utils.rshift
       (Z.lor (Z.lor (Z.lor (Z.shiftl 255 24)
                            (Z.shiftl (Z.land r 0x0ff) 16))
                     (Z.shiftl (Z.land g 0x0ff) 8))
              (Z.land b 0x0ff))
       0
  <= 0xFFFFFFFF.
Proof.
  change (0xFF000000
          <= Snake.color_utils.argb_from_rgb r g b <= 0xFFFFFFFF).
  assert (E : Snake.color_utils.argb_from_rgb r g b
              = Snake.color_utils.argb_from_rgb (Z.land r 255) (Z.land g 255) (Z.land b 255)).
  { unfold Snake.color_utils.argb_from_rgb.
    rewrite !(land_255 (Z.land _ 255)), !land_255, !Z.mod_mod by lia. reflexivity. }
  rewrite E, argb_from_rgb_bytes by apply byte_of_land.
  pose proof (byte_of_land r). pose proof (byte_of_land g). pose proof (byte_of_land b).
  change 0xFF000000 with 4278190080. change 0xFFFFFFFF with 4294967295. lia.
Qed.

Lemma Returns_inj {A : Type} (a b : A) :
  Snake.string_utils.Returns a = Snake.string_utils.Returns b -> a = b.
Proof. intros H. injection H. auto. Qed.

Lemma and_then_returns {A B : Type}
    (m : Snake.string_utils.result A) (k : A -> Snake.string_utils.result B) (b : B) :
  Snake.string_utils.and_then m k = Snake.string_utils.Returns b ->
  exists a, m = Snake.string_utils.Returns a /\ k a = Snake.string_utils.Returns b.
Proof. destruct m; simpl; intros H; [eauto | discriminate]. Qed.

(** What [argb_from_hex] can do.  After the [#] characters are removed, a
    string whose length is not 3, 6 or 8 raises
    [Exception('unexpected hex ' + digits)]; whenever a colour is returned
    it is opaque, between [0xFF000000] and [0xFFFFFFFF], and the length was
    3, 6 or 8; and the [#] characters, wherever they stand, do not change
    the outcome. *)
Theorem argb_from_hex_outcomes (hex : string) :
  let digits := str_remove "#" hex in
  (String.length digits <> 3%nat -> String.length digits <> 6%nat ->
   String.length digits <> 8%nat ->
   Snake.string_utils.argb_from_hex hex
   = Snake.string_utils.Raises (Snake.string_utils.Exception ("unexpected hex " ++ digits))) /\
  (forall argb, Snake.string_utils.argb_from_hex hex = Snake.string_utils.Returns argb ->
     0xFF000000 <= argb <= 0xFFFFFFFF /\
     (String.length digits = 3%nat \/ String.length digits = 6%nat
      \/ String.length digits = 8%nat)) /\
  Snake.string_utils.argb_from_hex digits = Snake.string_utils.argb_from_hex hex.
Proof.
  intros digits. split; [| split].
  - intros H3 H6 H8. unfold Snake.string_utils.argb_from_hex. fold digits.
    apply Nat.eqb_neq in H3, H6, H8. rewrite H3, H6, H8. reflexivity.
  - intros argb H. unfold Snake.string_utils.argb_from_hex in H. fold digits in H.
    assert (Hlen : String.length digits = 3%nat \/ String.length digits = 6%nat
                   \/ String.length digits = 8%nat).
    { destruct (Nat.eqb (String.length digits) 3) eqn:E3;
        [apply Nat.eqb_eq in E3; auto |].
      destruct (Nat.eqb (String.length digits) 6) eqn:E6;
        [apply Nat.eqb_eq in E6; auto |].
      destruct (Nat.eqb (String.length digits) 8) eqn:E8;
        [apply Nat.eqb_eq in E8; auto |].
      cbn [negb andb] in H. discriminate H. }
    split; [| exact Hlen].
    match type of H with
    | (if ?c then _ else _) = _ => destruct c; [discriminate H |]
    end.
    apply and_then_returns in H. destruct H as ([[r g] b] & _ & H).
    apply Returns_inj in H. rewrite <- H. apply argb_from_hex_packs.
  - unfold Snake.string_utils.argb_from_hex. fold digits.
    assert (E : str_remove "#" digits = digits).
    { unfold digits. clear. induction hex as [| a t IH]; [reflexivity |].
      cbn [str_remove]. destruct (Ascii.eqb a "#") eqn:Ea; [exact IH |].
      cbn [str_remove]. rewrite Ea, IH. reflexivity. }
    rewrite E. reflexivity.
Qed.

Lemma argb_from_hex_outcomes_witness :
  Snake.string_utils.argb_from_hex "#12345"
  = Snake.string_utils.Raises (Snake.string_utils.Exception "unexpected hex 12345").
Proof.
  apply (proj1 (argb_from_hex_outcomes "#12345")); cbn; discriminate.
Defined.

(** The three forms of [argb_from_hex].  The three-character form is the
    six-character form with every character doubled, and the
    eight-character form is the six-character form of its last six
    characters: its first two characters, the alpha byte, are never read. *)
Theorem argb_from_hex_forms :
  (forall a b c : ascii,
     Ascii.eqb a "#" = false -> Ascii.eqb b "#" = false -> Ascii.eqb c "#" = false ->
     Snake.string_utils.argb_from_hex (String a (String b (String c EmptyString)))
     = Snake.string_utils.argb_from_hex
         (String a (String a (String b (String b (String c (String c EmptyString))))))) /\
  (forall (x y : ascii) (hex : string),
     Ascii.eqb x "#" = false -> Ascii.eqb y "#" = false ->
     String.length (str_remove "#" hex) = 6%nat ->
     Snake.string_utils.argb_from_hex (String x (String y hex))
     = Snake.string_utils.argb_from_hex hex).
Proof.
  split.
  - intros a b c Ha Hb Hc. unfold Snake.string_utils.argb_from_hex.
    cbn [str_remove]. rewrite Ha, Hb, Hc. reflexivity.
  - intros x y hex Hx Hy Hlen. unfold Snake.string_utils.argb_from_hex.
    cbn [str_remove]. rewrite Hx, Hy.
    destruct (str_remove "#" hex) as [| c1 [| c2 [| c3 [| c4 [| c5 [| c6 [| ? ?]]]]]]];
      try discriminate.
    reflexivity.
Qed.

Lemma argb_from_hex_forms_witness :
  Snake.string_utils.argb_from_hex "369"
  = Snake.string_utils.argb_from_hex "336699" /\
  Snake.string_utils.argb_from_hex "80336699"
  = Snake.string_utils.argb_from_hex "336699".
Proof.
  split.
  - apply (proj1 argb_from_hex_forms "3"%char "6"%char "9"%char); reflexivity.
  - apply (proj2 argb_from_hex_forms "8"%char "0"%char "336699"%string); reflexivity.
Defined.

Local Close Scope Z_scope.

(** ** The transfer function and its inverse *)

(** [delinearized] inverts [linearized] on every channel value:
    [delinearized(linearized(k)) = k] for [0 <= k <= 255], in both trees,
    and [linearized(k)] lies in [[0, 100]]. *)
Theorem delinearized_inverts_linearized (k : Z) :
  (0 <= k <= 255)%Z ->
  Snake.color_utils.delinearized (Snake.color_utils.linearized k) = k /\
  Camel.color_utils.delinearized (Camel.color_utils.linearized k) = k /\
  0 <= Snake.color_utils.linearized k <= 100.
Proof.
  intros Hk.
  assert (E : Snake.color_utils.delinearized (Snake.color_utils.linearized k) = k).
  { apply delinearized_near_linearized; [exact Hk |].
    replace (Snake.color_utils.linearized k - Snake.color_utils.linearized k) with 0 by ring.
    rewrite Rabs_R0. lra. }
  split; [exact E |]. split; [exact E |]. apply linearized_range, Hk.
Qed.

Lemma delinearized_inverts_linearized_witness :
  Snake.color_utils.delinearized (Snake.color_utils.linearized 128) = 128%Z /\
  Camel.color_utils.delinearized (Camel.color_utils.linearized 128) = 128%Z /\
  0 <= Snake.color_utils.linearized 128 <= 100.
Proof. apply (delinearized_inverts_linearized 128). lia. Defined.

(** ** The two halves of the Lab transfer function *)

Lemma cube_root_cubed (t : R) :
  0 < t -> Rpower t (1.0 / 3.0) * Rpower t (1.0 / 3.0) * Rpower t (1.0 / 3.0) = t.
Proof.
  intros Ht.
  pose proof (Rpower_pow_ratio t (1.0 / 3.0) 1 3 Ht ltac:(simpl; lra)) as H.
  transitivity (Rpower t (1.0 / 3.0) ^ 3); [ring | rewrite H; ring].
Qed.

Lemma cube_root_of_cube (f : R) :
  0 < f -> Rpower (f * f * f) (1.0 / 3.0) = f.
Proof.
  intros Hf.
  replace (f * f * f) with (Rpower f 3).
  - rewrite Rpower_mult. replace (3 * (1.0 / 3.0)) with 1 by lra.
    apply Rpower_1, Hf.
  - replace 3 with (INR 3) by (simpl; lra). rewrite Rpower_pow by exact Hf. ring.
Qed.

Lemma cube_le_epsilon (f : R) : f <= 6 / 29 -> f * f * f <= 216.0 / 24389.0.
Proof.
  intros Hf. destruct (Rle_dec 0 f) as [H0 | H0].
  - assert (f * f <= 6 / 29 * (6 / 29)) by (apply Rmult_le_compat; lra).
    assert (f * f * f <= 6 / 29 * (6 / 29) * (6 / 29)).
    { apply Rmult_le_compat; try lra. apply Rmult_le_pos; lra. }
    lra.
  - assert (0 <= f * f) by (apply Rle_0_sqr).
    assert (f * f * f <= 0).
    { replace (f * f * f) with (- (f * f * - f)) by ring.
      assert (0 <= f * f * - f) by (apply Rmult_le_pos; lra). lra. }
    lra.
Qed.

Lemma cube_gt_epsilon (f : R) : 6 / 29 < f -> 216.0 / 24389.0 < f * f * f.
Proof.
  intros Hf.
  assert (6 / 29 * (6 / 29) < f * f) by (apply Rmult_le_0_lt_compat; lra).
  assert (6 / 29 * (6 / 29) * (6 / 29) < f * f * f).
  { apply Rmult_le_0_lt_compat; try lra. }
  lra.
Qed.

Lemma lab_invf_labf (t : R) :
  Snake.color_utils.lab_invf (Snake.color_utils.labf t) = t.
Proof.
  unfold Snake.color_utils.labf, Snake.color_utils.lab_invf. cbv zeta.
  destruct (Rlt_dec (216.0 / 24389.0) t) as [Ht | Ht].
  - rewrite cube_root_cubed by lra.
    destruct (Rlt_dec (216.0 / 24389.0) t); [reflexivity | contradiction].
  - set (f := (24389.0 / 27.0 * t + 16) / 116).
    assert (Hf : f <= 6 / 29) by (unfold f; lra).
    pose proof (cube_le_epsilon f Hf).
    destruct (Rlt_dec (216.0 / 24389.0) (f * f * f)); [lra |].
    unfold f. lra.
Qed.

Lemma labf_lab_invf (f : R) :
  Snake.color_utils.labf (Snake.color_utils.lab_invf f) = f.
Proof.
  unfold Snake.color_utils.labf, Snake.color_utils.lab_invf. cbv zeta.
  destruct (Rlt_dec (216.0 / 24389.0) (f * f * f)) as [Hc | Hc].
  - destruct (Rlt_dec (216.0 / 24389.0) (f * f * f)); [| contradiction].
    apply cube_root_of_cube.
    destruct (Rlt_dec (6 / 29) f) as [| Hn]; [lra |].
    pose proof (cube_le_epsilon f ltac:(lra)). lra.
  - assert (Hf : f <= 6 / 29).
    { destruct (Rle_dec f (6 / 29)) as [| Hn]; [assumption |].
      pose proof (cube_gt_epsilon f ltac:(lra)). lra. }
    destruct (Rlt_dec (216.0 / 24389.0) ((116 * f - 16) / (24389.0 / 27.0))) as [Hv | Hv].
    + exfalso. apply (Rlt_not_le _ _ Hv). lra.
    + lra.
Qed.

(** With floats read as real numbers, [lab_invf] and [labf] are inverse to
    each other on all of the reals, in both trees: the two branches of each
    meet at [e = 216 / 24389], that is at [f = 6 / 29]. *)
Theorem lab_transfer_inverse :
  (forall t, Snake.color_utils.lab_invf (Snake.color_utils.labf t) = t) /\
  (forall f, Snake.color_utils.labf (Snake.color_utils.lab_invf f) = f) /\
  (forall t, Camel.color_utils.labInvf (Camel.color_utils.labF t) = t) /\
  (forall f, Camel.color_utils.labF (Camel.color_utils.labInvf f) = f).
Proof.
  split; [exact lab_invf_labf |]. split; [exact labf_lab_invf |].
  split; [exact lab_invf_labf | exact labf_lab_invf].
Qed.

(** ** L* and Y *)

Lemma Rpower_3 (x : R) : 0 < x -> Rpower x 3.0 = x * x * x.
Proof.
  intros Hx. replace 3.0 with (INR 3) by (simpl; lra).
  rewrite Rpower_pow by exact Hx. ring.
Qed.

Lemma y_from_lstar_lab_invf (lstar : R) :
  Snake.color_utils.y_from_lstar lstar
  = 100 * Snake.color_utils.lab_invf ((lstar + 16.0) / 116.0).
Proof.
  unfold Snake.color_utils.y_from_lstar, Snake.color_utils.lab_invf. cbv zeta.
  set (f := (lstar + 16.0) / 116.0).
  destruct (Rlt_dec 8 lstar) as [H8 | H8].
  - assert (Hf : 6 / 29 < f) by (unfold f; lra).
    pose proof (cube_gt_epsilon f Hf).
    rewrite Rpower_3 by lra.
    destruct (Rlt_dec (216.0 / 24389.0) (f * f * f)); [lra | contradiction].
  - assert (Hf : f <= 6 / 29) by (unfold f; lra).
    pose proof (cube_le_epsilon f Hf).
    destruct (Rlt_dec (216.0 / 24389.0) (f * f * f)); [lra |].
    unfold f. lra.
Qed.

Lemma lstar_of_y (y : R) :
  (if Rle_dec y (216.0 / 24389.0) then 24389.0 / 27.0 * y
   else 116.0 * Rpower y (1.0 / 3.0) - 16.0)
  = 116 * Snake.color_utils.labf y - 16.
Proof.
  unfold Snake.color_utils.labf. cbv zeta.
  destruct (Rle_dec y (216.0 / 24389.0)), (Rlt_dec (216.0 / 24389.0) y); lra.
Qed.

(** [y_from_lstar] is [100 * lab_invf((lstar + 16) / 116)] and the camelCase
    [yFromLstar] is the same function; the camelCase [lstarFromArgb] is
    [116 * labF(Y / 100) - 16] for the [Y] of [xyzFromArgb]; so
    [yFromLstar(lstarFromArgb(argb))] gives back that [Y], and so does the
    snake_case [y_from_lstar] (floats read as real numbers). *)
Theorem y_from_lstar_inverts_lstar :
  (forall lstar,
     Snake.color_utils.y_from_lstar lstar
     = 100 * Snake.color_utils.lab_invf ((lstar + 16.0) / 116.0)) /\
  (forall lstar, Camel.color_utils.yFromLstar lstar = Snake.color_utils.y_from_lstar lstar) /\
  (forall argb,
     Camel.color_utils.lstarFromArgb argb
     = 116 * Camel.color_utils.labF (at1 (Camel.color_utils.xyzFromArgb argb) / 100) - 16) /\
  (forall argb,
     Camel.color_utils.yFromLstar (Camel.color_utils.lstarFromArgb argb)
     = at1 (Camel.color_utils.xyzFromArgb argb)) /\
  (forall argb,
     Snake.color_utils.y_from_lstar (Camel.color_utils.lstarFromArgb argb)
     = at1 (Camel.color_utils.xyzFromArgb argb)).
Proof.
  assert (Hinv : forall y,
            Snake.color_utils.y_from_lstar (116 * Snake.color_utils.labf (y / 100.0) - 16) = y).
  { intros y. rewrite y_from_lstar_lab_invf.
    replace ((116 * Snake.color_utils.labf (y / 100.0) - 16 + 16.0) / 116.0)
      with (Snake.color_utils.labf (y / 100.0)) by lra.
    rewrite lab_invf_labf. lra. }
  assert (Hl : forall argb,
            Camel.color_utils.lstarFromArgb argb
            = 116 * Snake.color_utils.labf
                      (at1 (Camel.color_utils.xyzFromArgb argb) / 100.0) - 16).
  { intros argb. unfold Camel.color_utils.lstarFromArgb. cbv zeta.
    apply lstar_of_y. }
  split; [exact y_from_lstar_lab_invf |].
  split; [reflexivity |].
  split; [| split].
  - intros argb. rewrite Hl.
    replace (at1 (Camel.color_utils.xyzFromArgb argb) / 100)
      with (at1 (Camel.color_utils.xyzFromArgb argb) / 100.0) by lra.
    reflexivity.
  - intros argb. rewrite Hl. apply Hinv.
  - intros argb. rewrite Hl. apply Hinv.
Qed.

(** ** Lab and back *)

Lemma argd_from_lab_of_f (fx fy fz : R) :
  Snake.color_utils.argd_from_lab
    (116.0 * fy - 16) (500.0 * (fx - fy)) (200.0 * (fy - fz))
  = Snake.color_utils.argb_from_xyz
      (Snake.color_utils.lab_invf fx * 95.047)
      (Snake.color_utils.lab_invf fy * 100.0)
      (Snake.color_utils.lab_invf fz * 108.883).
Proof.
  unfold Snake.color_utils.argd_from_lab. cbv zeta.
  cbn [at0 at1 at2 Snake.color_utils.WHITE_POINT_D65].
  replace (500.0 * (fx - fy) / 500.0 + (116.0 * fy - 16 + 16.0) / 116.0) with fx by lra.
  replace ((116.0 * fy - 16 + 16.0) / 116.0 - 200.0 * (fy - fz) / 200.0) with fz by lra.
  replace ((116.0 * fy - 16 + 16.0) / 116.0) with fy by lra.
  reflexivity.
Qed.

Lemma labF_snake (t : R) : Camel.color_utils.labF t = Snake.color_utils.labf t.
Proof. reflexivity. Qed.

(** The round trip ARGB -> L*a*b* -> ARGB is the identity on every opaque
    colour: the snake_case [argd_from_lab] applied to the three components
    of the camelCase [labFromArgb(c)] is [c] (floats read as real
    numbers). *)
Theorem lab_round_trip (c : Z) :
  (0xFF000000 <= c <= 0xFFFFFFFF)%Z ->
  let lab := Camel.color_utils.labFromArgb c in
  Snake.color_utils.argd_from_lab (at0 lab) (at1 lab) (at2 lab) = c.
Proof.
  intros Hc. cbv zeta.
  unfold Camel.color_utils.labFromArgb. cbv zeta.
  cbn [at0 at1 at2].
  rewrite argd_from_lab_of_f, !labF_snake, !lab_invf_labf.
  change Camel.color_utils.redFromArgb with Snake.color_utils.red_from_argb.
  change Camel.color_utils.greenFromArgb with Snake.color_utils.green_from_argb.
  change Camel.color_utils.blueFromArgb with Snake.color_utils.blue_from_argb.
  change Camel.color_utils.linearized with Snake.color_utils.linearized.
  cbn [at0 at1 at2 Camel.color_utils.WHITE_POINT_D65 Camel.color_utils.SRGB_TO_XYZ].
  pose proof (argb_from_xyz_of_linear c Hc) as H. cbv zeta in H.
  etransitivity; [| exact H].
  unfold np_dot_mat_vec.
  cbn [at0 at1 at2 Snake.color_utils.SRGB_TO_XYZ].
  f_equal; lra.
Qed.

Lemma lab_round_trip_witness :
  let lab := Camel.color_utils.labFromArgb 0xFF336699 in
  Snake.color_utils.argd_from_lab (at0 lab) (at1 lab) (at2 lab) = 0xFF336699%Z.
Proof. apply (lab_round_trip 0xFF336699). lia. Defined.

(** ** Grays of a given L* *)

Lemma delinearized_nonpos (v : R) : v <= 0 -> Snake.color_utils.delinearized v = 0%Z.
Proof.
  intros Hv. unfold Snake.color_utils.delinearized. cbv zeta.
  destruct Rle_dec as [_ | H]; [| exfalso; apply H; lra].
  pose proof (py_round_le 0 (v / 100.0 * 12.92 * 255.0) ltac:(lra)) as Hr.
  unfold Snake.math_utils.clamp_int.
  destruct (Z.ltb_spec (py_round (v / 100.0 * 12.92 * 255.0)) 0); [reflexivity |].
  destruct (Z.gtb_spec (py_round (v / 100.0 * 12.92 * 255.0)) 255); lia.
Qed.

Lemma delinearized_full (v : R) :
  99.9999 <= v -> Snake.color_utils.delinearized v = 255%Z.
Proof.
  intros Hv. unfold Snake.color_utils.delinearized. cbv zeta.
  destruct Rle_dec as [H | _]; [lra |].
  assert (Hp : 0.9999 < Rpower (v / 100.0) (1.0 / 2.4)).
  { apply (Rpower_gt_bound _ _ _ 5 12); [lra | lra | simpl INR; lra |].
    apply Rlt_le_trans with (0.999999 ^ 5); [lra |].
    apply pow_incr. lra. }
  pose proof (py_round_ge 255
                ((1.055 * Rpower (v / 100.0) (1.0 / 2.4) - 0.055) * 255.0)
                ltac:(lra)) as Hr.
  unfold Snake.math_utils.clamp_int.
  destruct (Z.ltb_spec (py_round ((1.055 * Rpower (v / 100.0) (1.0 / 2.4) - 0.055) * 255.0)) 0);
    [lia |].
  destruct (Z.gtb_spec (py_round ((1.055 * Rpower (v / 100.0) (1.0 / 2.4) - 0.055) * 255.0)) 255);
    lia.
Qed.

Lemma argb_From_lstar_scaled (lstar s : R) :
  (if Rlt_dec 8.0 lstar
   then (lstar + 16.0) / 116.0 * ((lstar + 16.0) / 116.0) * ((lstar + 16.0) / 116.0)
   else lstar / (24389.0 / 27.0)) = s ->
  Snake.color_utils.argb_From_lstar lstar
  = Snake.color_utils.argb_from_xyz (s * 95.047) (s * 100.0) (s * 108.883).
Proof.
  intros Hs. unfold Snake.color_utils.argb_From_lstar. cbv zeta.
  cbn [at0 at1 at2 Snake.color_utils.WHITE_POINT_D65].
  set (f := (lstar + 16.0) / 116.0) in *.
  destruct (Rlt_dec 8.0 lstar) as [H8 | H8].
  - pose proof (cube_gt_epsilon f ltac:(unfold f; lra)).
    destruct (Rlt_dec (216.0 / 24389.0) (f * f * f)); [| contradiction].
    rewrite Hs. reflexivity.
  - pose proof (cube_le_epsilon f ltac:(unfold f; lra)).
    destruct (Rlt_dec (216.0 / 24389.0) (f * f * f)); [lra |].
    rewrite Hs. reflexivity.
Qed.

(** The XYZ of a gray is a multiple [s] of the white point.  For [s] of
    magnitude up to 10^12 each of the three values that [argb_from_xyz]
    rounds is a 64-bit integer. *)
Lemma gray_rounds_in_int64 (s : R) (row : vec3) :
  Rabs s <= 1000000000000 ->
  In row [at0 Snake.color_utils.XYZ_TO_SRGB; at1 Snake.color_utils.XYZ_TO_SRGB;
          at2 Snake.color_utils.XYZ_TO_SRGB] ->
  int64 (py_round (delinearized_scaled
                     (at0 row * (s * 95.047) + at1 row * (s * 100.0)
                      + at2 row * (s * 108.883)))).
Proof.
  intros Hs Hrow. apply delinearized_rounds_in_int64.
  assert (Hs' : -1000000000000 <= s <= 1000000000000).
  { revert Hs. unfold Rabs. destruct Rcase_abs; lra. }
  destruct Hrow as [<- | [<- | [<- | []]]];
    cbn [at0 at1 at2 Snake.color_utils.XYZ_TO_SRGB];
    unfold Rabs; destruct Rcase_abs; lra.
Qed.

(** For an [lstar] of magnitude up to 10^6, [argb_From_lstar(lstar)] is
    [argb_from_xyz] of a multiple [s] of the white point, and each of the
    three values rounded on the way is a 64-bit integer; it is
    [argd_from_lab(lstar, 0, 0)]; it is opaque black for [lstar <= 0] and
    opaque white for [lstar >= 100] (floats read as real numbers). *)
Theorem argb_from_lstar_grays (lstar : R) :
  -1000000 <= lstar <= 1000000 ->
  (exists s,
     Snake.color_utils.argb_From_lstar lstar
     = Snake.color_utils.argb_from_xyz (s * 95.047) (s * 100.0) (s * 108.883) /\
     forall row,
       In row [at0 Snake.color_utils.XYZ_TO_SRGB; at1 Snake.color_utils.XYZ_TO_SRGB;
               at2 Snake.color_utils.XYZ_TO_SRGB] ->
       int64 (py_round (delinearized_scaled
                          (at0 row * (s * 95.047) + at1 row * (s * 100.0)
                           + at2 row * (s * 108.883))))) /\
  Snake.color_utils.argb_From_lstar lstar = Snake.color_utils.argd_from_lab lstar 0 0 /\
  (lstar <= 0 -> Snake.color_utils.argb_From_lstar lstar = 0xFF000000%Z) /\
  (100 <= lstar -> Snake.color_utils.argb_From_lstar lstar = 0xFFFFFFFF%Z).
Proof.
  intros Hrange.
  split; [| split; [| split]].
  - eexists. split; [apply (argb_From_lstar_scaled lstar _ eq_refl) |].
    intros row Hrow. apply gray_rounds_in_int64; [| exact Hrow].
    set (f := (lstar + 16.0) / 116.0).
    destruct (Rlt_dec 8.0 lstar) as [H8 | H8].
    + assert (Hf : 0 <= f <= 10000) by (unfold f; lra).
      assert (H2 : 0 <= f * f <= 10000 * 10000).
      { split; [apply Rmult_le_pos; lra | apply Rmult_le_compat; lra]. }
      assert (H3 : 0 <= f * f * f <= 10000 * 10000 * 10000).
      { split; [apply Rmult_le_pos; lra | apply Rmult_le_compat; lra]. }
      unfold Rabs. destruct Rcase_abs; lra.
    + unfold Rabs. destruct Rcase_abs; lra.
  - rewrite (argb_From_lstar_scaled lstar _ eq_refl).
    unfold Snake.color_utils.argd_from_lab. cbv zeta.
    cbn [at0 at1 at2 Snake.color_utils.WHITE_POINT_D65].
    replace (0 / 500.0 + (lstar + 16.0) / 116.0) with ((lstar + 16.0) / 116.0) by lra.
    replace ((lstar + 16.0) / 116.0 - 0 / 200.0) with ((lstar + 16.0) / 116.0) by lra.
    unfold Snake.color_utils.lab_invf. cbv zeta.
    set (f := (lstar + 16.0) / 116.0).
    destruct (Rlt_dec 8.0 lstar) as [H8 | H8].
    + pose proof (cube_gt_epsilon f ltac:(unfold f; lra)).
      destruct (Rlt_dec (216.0 / 24389.0) (f * f * f)); [reflexivity | contradiction].
    + pose proof (cube_le_epsilon f ltac:(unfold f; lra)).
      destruct (Rlt_dec (216.0 / 24389.0) (f * f * f)); [lra |].
      replace ((116 * f - 16) / (24389.0 / 27.0)) with (lstar / (24389.0 / 27.0))
        by (unfold f; lra).
      reflexivity.
  - intros Hl.
    rewrite (argb_From_lstar_scaled lstar (lstar / (24389.0 / 27.0))).
    + rewrite argb_from_xyz_bytes. cbv zeta.
      cbn [at0 at1 at2 Snake.color_utils.XYZ_TO_SRGB].
      rewrite !delinearized_nonpos by lra. reflexivity.
    + destruct (Rlt_dec 8.0 lstar); [lra | reflexivity].
  - intros Hl.
    set (f := (lstar + 16.0) / 116.0).
    assert (Hf : 1 <= f) by (unfold f; lra).
    assert (Hc : 1 <= f * f * f).
    { assert (1 * 1 <= f * f) by (apply Rmult_le_compat; lra).
      assert (1 * 1 * 1 <= f * f * f) by (apply Rmult_le_compat; lra).
      lra. }
    rewrite (argb_From_lstar_scaled lstar (f * f * f)).
    + rewrite argb_from_xyz_bytes. cbv zeta.
      cbn [at0 at1 at2 Snake.color_utils.XYZ_TO_SRGB].
      set (s := f * f * f) in *. clearbody s. clear - Hc.
      rewrite !delinearized_full by lra. reflexivity.
    + destruct (Rlt_dec 8.0 lstar); [reflexivity | lra].
Qed.

Lemma argb_from_lstar_grays_witness :
  Snake.color_utils.argb_From_lstar (-5) = 0xFF000000%Z /\
  Snake.color_utils.argb_From_lstar 120 = 0xFFFFFFFF%Z.
Proof.
  split.
  - apply (proj1 (proj2 (proj2 (argb_from_lstar_grays (-5) ltac:(lra))))). lra.
  - apply (proj2 (proj2 (proj2 (argb_from_lstar_grays 120 ltac:(lra))))). lra.
Defined.

(** ** [Cam16.distance] as a metric *)

Lemma sum_sqr_zero (x y z : R) : x * x + y * y + z * z = 0 -> x = 0 /\ y = 0 /\ z = 0.
Proof.
  intros H.
  pose proof (Rle_0_sqr x). pose proof (Rle_0_sqr y). pose proof (Rle_0_sqr z).
  unfold Rsqr in *.
  assert (x * x = 0) by lra. assert (y * y = 0) by lra. assert (z * z = 0) by lra.
  repeat split; apply Rsqr_0_uniq; assumption.
Qed.

(** [Cam16.distance] returns for every pair of CAM16 values; the result is
    symmetric, not negative, and zero exactly when the two values have the
    same [jstar], [astar] and [bstar]. *)
Theorem distance_metric (self other : Snake.cam16.Cam16) :
  exists d,
    Snake.cam16.distance self other = Ok d /\
    Snake.cam16.distance other self = Ok d /\
    0 <= d /\
    (d = 0 <-> Snake.cam16.jstar self = Snake.cam16.jstar other /\
               Snake.cam16.astar self = Snake.cam16.astar other /\
               Snake.cam16.bstar self = Snake.cam16.bstar other).
Proof.
  unfold Snake.cam16.distance. cbv zeta.
  set (dJ := Snake.cam16.jstar self - Snake.cam16.jstar other).
  set (dA := Snake.cam16.astar self - Snake.cam16.astar other).
  set (dB := Snake.cam16.bstar self - Snake.cam16.bstar other).
  replace (Snake.cam16.jstar other - Snake.cam16.jstar self) with (- dJ) by (unfold dJ; ring).
  replace (Snake.cam16.astar other - Snake.cam16.astar self) with (- dA) by (unfold dA; ring).
  replace (Snake.cam16.bstar other - Snake.cam16.bstar self) with (- dB) by (unfold dB; ring).
  replace (- dJ * - dJ + - dA * - dA + - dB * - dB) with (dJ * dJ + dA * dA + dB * dB) by ring.
  set (S := dJ * dJ + dA * dA + dB * dB).
  assert (HS : 0 <= S).
  { unfold S. pose proof (Rle_0_sqr dJ). pose proof (Rle_0_sqr dA).
    pose proof (Rle_0_sqr dB). unfold Rsqr in *. lra. }
  unfold math_sqrt. destruct (Rlt_dec S 0) as [Hneg |]; [lra |].
  run. rewrite (py_pow_nonneg (sqrt S) 0.63) by (try apply sqrt_pos; lra).
  exists (1.41 * pow_nonneg (sqrt S) 0.63).
  split; [reflexivity |]. split; [reflexivity |].
  unfold pow_nonneg. destruct (Req_dec_T (sqrt S) 0) as [E0 | E0].
  - split; [lra |]. split; [intros _ | intros _; lra].
    apply sqrt_eq_0 in E0; [| exact HS].
    destruct (sum_sqr_zero dJ dA dB E0) as (H1 & H2 & H3).
    unfold dJ, dA, dB in *. repeat split; lra.
  - pose proof (Rpower_pos (sqrt S) 0.63). split; [lra |].
    split; [intros; lra |]. intros (H1 & H2 & H3). exfalso. apply E0.
    replace S with 0; [apply sqrt_0 |].
    unfold S, dJ, dA, dB. rewrite H1, H2, H3. ring.
Qed.

(** ** [Cam16.fromJch_in_viewing_conditions] *)

Lemma math_sqrt_ok (x r : R) : math_sqrt x = Ok r -> 0 <= x /\ r = sqrt x.
Proof.
  unfold math_sqrt. destruct Rlt_dec; [discriminate |].
  intros H. injection H as <-. split; [lra | reflexivity].
Qed.

Lemma py_div_inv (x y r : R) : py_div x y = Ok r -> y <> 0 /\ r = x / y.
Proof.
  unfold py_div. destruct Req_dec_T; [discriminate |].
  intros H. injection H as <-. split; [assumption | reflexivity].
Qed.

Lemma math_log_ok (x r : R) : math_log x = Ok r -> 0 < x /\ r = ln x.
Proof.
  unfold math_log. destruct Rle_dec; [discriminate |].
  intros H. injection H as <-. split; [lra | reflexivity].
Qed.

(** [Cam16.fromJch_in_viewing_conditions] needs a positive lightness.  With
    [j = 0] it raises ZeroDivisionError for every chroma, hue and viewing
    conditions; whenever it returns, [j > 0], the fields [hue], [chroma]
    and [j] are the arguments, [m = c * fLRoot], [s >= 0],
    [jstar * (1 + 0.007 j) = 1.7 j] and [astar^2 + bstar^2] is the square of
    [ln(1 + 0.0228 m) / 0.0228].  Hence
    [Cam16.fromUcs_in_viewing_conditions] raises for [jstar = 0]. *)
Theorem fromJch_needs_positive_lightness :
  (forall c h vc,
     Snake.cam16.fromJch_in_viewing_conditions 0 c h vc = Raise ZeroDivisionError) /\
  (forall j c h vc cam,
     Snake.cam16.fromJch_in_viewing_conditions j c h vc = Ok cam ->
     0 < j /\
     Snake.cam16.hue cam = h /\ Snake.cam16.chroma cam = c /\ Snake.cam16.j cam = j /\
     Snake.cam16.m cam = c * Snake.ViewingConditions.fLRoot vc /\
     0 <= Snake.cam16.s cam /\
     Snake.cam16.jstar cam * (1 + 0.007 * j) = 1.7 * j /\
     Snake.cam16.astar cam * Snake.cam16.astar cam
     + Snake.cam16.bstar cam * Snake.cam16.bstar cam
     = Rsqr (ln (1 + 0.0228 * Snake.cam16.m cam) / 0.0228)) /\
  (forall astar bstar vc,
     exists e, Snake.cam16.fromUcs_in_viewing_conditions 0 astar bstar vc = Raise e).
Proof.
  assert (Hzero : forall c h vc,
            Snake.cam16.fromJch_in_viewing_conditions 0 c h vc = Raise ZeroDivisionError).
  { intros c h vc. unfold Snake.cam16.fromJch_in_viewing_conditions. cbv zeta.
    unfold py_div at 1.
    destruct (Req_dec_T (Snake.ViewingConditions.c vc) 0); [reflexivity |].
    run. rewrite (math_sqrt_zero (0 / 100.0)) by lra. run.
    rewrite (py_div_zero c 0) by reflexivity. reflexivity. }
  split; [exact Hzero | split].
  - intros j c h vc cam H.
    unfold Snake.cam16.fromJch_in_viewing_conditions in H. cbv zeta in H.
    apply bind_ok in H. destruct H as (q0 & Hq0 & H).
    apply bind_ok in H. destruct H as (q1 & Hq1 & H).
    apply bind_ok in H. destruct H as (alpha0 & Ha0 & H).
    apply bind_ok in H. destruct H as (alpha & Ha & H).
    apply bind_ok in H. destruct H as (s0 & Hs0 & H).
    apply bind_ok in H. destruct H as (s1 & Hs1 & H).
    apply bind_ok in H. destruct H as (jstar & Hjs & H).
    apply bind_ok in H. destruct H as (mstar0 & Hm0 & H).
    injection H as <-. cbn [Snake.cam16.hue Snake.cam16.chroma Snake.cam16.j
      Snake.cam16.m Snake.cam16.s Snake.cam16.jstar Snake.cam16.astar Snake.cam16.bstar].
    apply math_sqrt_ok in Ha0. destruct Ha0 as [Hj0 ->].
    apply py_div_inv in Ha. destruct Ha as [Hsq _].
    apply math_sqrt_ok in Hs1. destruct Hs1 as [_ ->].
    apply py_div_inv in Hjs. destruct Hjs as [Hden ->].
    apply math_log_ok in Hm0. destruct Hm0 as [_ ->].
    assert (Hj : 0 < j).
    { destruct (Req_dec_T j 0) as [E |]; [| lra].
      exfalso. apply Hsq. rewrite E. replace (0 / 100.0) with 0 by lra. apply sqrt_0. }
    split; [exact Hj |]. repeat split.
    + pose proof (sqrt_pos s0). lra.
    + replace (1 + 0.007 * j) with (1.0 + 0.007 * j) by lra.
      unfold Rdiv. rewrite Rmult_assoc, Rinv_l by exact Hden. lra.
    + set (L := ln (1.0 + 0.0228 * (c * Snake.ViewingConditions.fLRoot vc))).
      replace (ln (1 + 0.0228 * (c * Snake.ViewingConditions.fLRoot vc))) with L
        by (unfold L; f_equal; lra).
      replace (L / 0.0228) with (1.0 / 0.0228 * L) by lra.
      set (k := 1.0 / 0.0228 * L). set (t := h * PI / 180.0).
      pose proof (sin2_cos2 t) as Ht. unfold Rsqr in *.
      transitivity (k * k * (sin t * sin t + cos t * cos t)); [ring |].
      rewrite Ht. ring.
  - intros astar bstar vc.
    unfold Snake.cam16.fromUcs_in_viewing_conditions. cbv zeta.
    destruct (math_sqrt (astar * astar + bstar * bstar)) as [m | e];
      [| eexists; reflexivity].
    run. destruct (py_div _ (Snake.ViewingConditions.fLRoot vc)) as [c | e];
      [| eexists; reflexivity].
    run. rewrite (py_div_zero_num 0 (1 - (0 - 100) * 0.007)) by lra.
    run. rewrite Hzero. eexists; reflexivity.
Qed.

(** ** From CAM16-UCS back to J, C and h *)

Lemma atan_ratio (r t : R) :
  0 < r -> cos t <> 0 -> - (PI / 2) < t < PI / 2 ->
  atan (r * sin t / (r * cos t)) = t.
Proof.
  intros Hr Hc Ht.
  replace (r * sin t / (r * cos t)) with (tan t)
    by (unfold tan; field; split; lra).
  apply atan_tan, Ht.
Qed.

Lemma math_atan2_polar (r t : R) :
  0 < r -> - PI < t <= PI -> math_atan2 (r * sin t) (r * cos t) = t.
Proof.
  intros Hr [Hlo Hhi]. pose proof PI_RGT_0 as Hpi. unfold math_atan2.
  destruct (Rtotal_order t (PI / 2)) as [H1 | [H1 | H1]].
  - destruct (Rtotal_order t (- (PI / 2))) as [H2 | [H2 | H2]].
    + (* -PI < t < -PI/2 *)
      assert (Hc : cos t < 0).
      { rewrite <- cos_neg. apply cos_lt_0; lra. }
      assert (Hs : sin t < 0) by (apply sin_lt_0_var; lra).
      assert (Hx : r * cos t < 0).
      { replace (r * cos t) with (- (r * - cos t)) by ring.
        assert (0 < r * - cos t) by (apply Rmult_lt_0_compat; lra). lra. }
      assert (Hy : r * sin t < 0).
      { replace (r * sin t) with (- (r * - sin t)) by ring.
        assert (0 < r * - sin t) by (apply Rmult_lt_0_compat; lra). lra. }
      destruct (Rlt_dec 0 (r * cos t)); [lra |].
      destruct (Rlt_dec (r * cos t) 0); [| lra].
      destruct (Rle_dec 0 (r * sin t)); [lra |].
      assert (Hc' : cos (t + PI) <> 0) by (rewrite neg_cos; lra).
      pose proof (atan_ratio r (t + PI) Hr Hc' ltac:(lra)) as E.
      rewrite neg_sin, neg_cos in E.
      replace (r * sin t / (r * cos t)) with (r * - sin t / (r * - cos t))
        by (field; split; lra).
      rewrite E. ring.
    + (* t = -PI/2 *)
      subst t. rewrite cos_neg, sin_neg, cos_PI2, sin_PI2.
      replace (r * 0) with 0 by ring. replace (r * - (1)) with (- r) by ring.
      destruct (Rlt_dec 0 0); [lra |]. destruct (Rlt_dec 0 0); [lra |].
      destruct (Rlt_dec 0 (- r)); [lra |]. destruct (Rlt_dec (- r) 0); [reflexivity | lra].
    + (* -PI/2 < t < PI/2 *)
      assert (Hc : 0 < cos t) by (apply cos_gt_0; lra).
      assert (Hx : 0 < r * cos t) by (apply Rmult_lt_0_compat; lra).
      destruct (Rlt_dec 0 (r * cos t)); [| lra].
      apply atan_ratio; lra.
  - (* t = PI/2 *)
    subst t. rewrite cos_PI2, sin_PI2.
    replace (r * 0) with 0 by ring. replace (r * 1) with r by ring.
    destruct (Rlt_dec 0 0); [lra |]. destruct (Rlt_dec 0 0); [lra |].
    destruct (Rlt_dec 0 r); [reflexivity | lra].
  - (* PI/2 < t <= PI *)
    assert (Hc : cos t < 0) by (apply cos_lt_0; lra).
    assert (Hs : 0 <= sin t) by (apply sin_ge_0; lra).
    assert (Hx : r * cos t < 0).
    { replace (r * cos t) with (- (r * - cos t)) by ring.
      assert (0 < r * - cos t) by (apply Rmult_lt_0_compat; lra). lra. }
    assert (Hy : 0 <= r * sin t) by (apply Rmult_le_pos; lra).
    destruct (Rlt_dec 0 (r * cos t)); [lra |].
    destruct (Rlt_dec (r * cos t) 0); [| lra].
    destruct (Rle_dec 0 (r * sin t)); [| lra].
    assert (Hc' : cos (t - PI) <> 0).
    { intros E. apply (Rlt_irrefl 0). rewrite <- E at 1.
      replace t with (t - PI + PI) in Hc by ring. rewrite neg_cos in Hc. lra. }
    pose proof (atan_ratio r (t - PI) Hr Hc' ltac:(lra)) as E.
    assert (Es : sin (t - PI) = - sin t).
    { replace t with (t - PI + PI) at 2 by ring. rewrite neg_sin. ring. }
    assert (Ec : cos (t - PI) = - cos t).
    { replace t with (t - PI + PI) at 2 by ring. rewrite neg_cos. ring. }
    rewrite Es, Ec in E.
    replace (r * sin t / (r * cos t)) with (r * - sin t / (r * - cos t))
      by (field; split; lra).
    rewrite E. ring.
Qed.

Lemma sin_cos_minus_2PI (t : R) : sin (t - 2 * PI) = sin t /\ cos (t - 2 * PI) = cos t.
Proof.
  replace (t - 2 * PI) with (- (- t + PI + PI)) by ring.
  rewrite sin_neg, cos_neg, !neg_sin, !neg_cos, sin_neg, cos_neg. split; ring.
Qed.

Lemma fromUcs_of_fromJch
    (j c h : R) (vc : Snake.ViewingConditions.t) (cam : Snake.cam16.Cam16) :
  0 < Snake.ViewingConditions.fLRoot vc ->
  (0 < c /\ 0 <= h < 360) \/ (c = 0 /\ h = 0) ->
  Snake.cam16.fromJch_in_viewing_conditions j c h vc = Ok cam ->
  Snake.cam16.fromUcs_in_viewing_conditions
    (Snake.cam16.jstar cam) (Snake.cam16.astar cam) (Snake.cam16.bstar cam) vc
  = Ok cam.
Proof.
  intros Hfl Hch H. pose proof PI_RGT_0 as Hpi.
  assert (Hc : 0 <= c) by (destruct Hch as [[? _] | [-> _]]; lra).
  pose proof H as H0.
  unfold Snake.cam16.fromJch_in_viewing_conditions in H. cbv zeta in H.
  apply bind_ok in H. destruct H as (q0 & Hq0 & H).
  apply bind_ok in H. destruct H as (q1 & Hq1 & H).
  apply bind_ok in H. destruct H as (alpha0 & Ha0 & H).
  apply bind_ok in H. destruct H as (alpha & Ha & H).
  apply bind_ok in H. destruct H as (s0 & Hs0 & H).
  apply bind_ok in H. destruct H as (s1 & Hs1 & H).
  apply bind_ok in H. destruct H as (jstar & Hjs & H).
  apply bind_ok in H. destruct H as (mstar0 & Hm0 & H).
  injection H as <-.
  cbn [Snake.cam16.jstar Snake.cam16.astar Snake.cam16.bstar].
  apply math_sqrt_ok in Ha0. destruct Ha0 as [Hj0 ->].
  apply py_div_inv in Ha. destruct Ha as [Hsq _].
  apply py_div_inv in Hjs. destruct Hjs as [Hden Ejs].
  apply math_log_ok in Hm0. destruct Hm0 as [Harg Em0].
  assert (Hj : 0 < j).
  { destruct (Req_dec_T j 0) as [E |]; [| lra].
    exfalso. apply Hsq. rewrite E. replace (0 / 100.0) with 0 by lra. apply sqrt_0. }
  set (m := c * Snake.ViewingConditions.fLRoot vc) in *.
  assert (Hm : 0 <= m) by (apply Rmult_le_pos; lra).
  assert (Hln : 0 <= mstar0).
  { rewrite Em0. destruct (Req_dec_T m 0) as [E0 | E0].
    - rewrite E0. replace (1.0 + 0.0228 * 0) with 1 by lra. rewrite ln_1. lra.
    - left. rewrite <- ln_1. apply ln_increasing; lra. }
  assert (Hln' : 0 < c -> 0 < mstar0).
  { intros Hpos. rewrite Em0, <- ln_1. apply ln_increasing; [lra |].
    assert (0 < m) by (apply Rmult_lt_0_compat; assumption). lra. }
  assert (Hln0 : c = 0 -> mstar0 = 0).
  { intros E0. rewrite Em0. unfold m. rewrite E0.
    replace (1.0 + 0.0228 * (0 * Snake.ViewingConditions.fLRoot vc)) with 1 by lra.
    apply ln_1. }
  set (mstar := 1.0 / 0.0228 * mstar0) in *.
  assert (Hms : 0 <= mstar) by (unfold mstar; lra).
  set (t := h * PI / 180.0) in *.
  unfold Snake.cam16.fromUcs_in_viewing_conditions. cbv zeta.
  assert (Esq : mstar * cos t * (mstar * cos t) + mstar * sin t * (mstar * sin t)
                = mstar * mstar).
  { pose proof (sin2_cos2 t) as Ht. unfold Rsqr in Ht.
    transitivity (mstar * mstar * (sin t * sin t + cos t * cos t)); [ring |].
    rewrite Ht. ring. }
  rewrite Esq. unfold math_sqrt at 1.
  destruct (Rlt_dec (mstar * mstar) 0) as [Hneg |].
  { exfalso. assert (0 <= mstar * mstar) by (apply Rmult_le_pos; lra). lra. }
  run. rewrite (sqrt_square mstar) by lra.
  assert (EM : (exp (mstar * 0.0228) - 1.0) / 0.0228 = m).
  { replace (mstar * 0.0228) with mstar0 by (unfold mstar; lra).
    rewrite Em0, exp_ln by exact Harg. lra. }
  rewrite EM, py_div_ok by lra. run.
  replace (m / Snake.ViewingConditions.fLRoot vc) with c
    by (unfold m; field; lra).
  assert (Eh : (if Rlt_dec (math_atan2 (mstar * sin t) (mstar * cos t) * (180.0 / PI)) 0.0
                then math_atan2 (mstar * sin t) (mstar * cos t) * (180.0 / PI) + 360.0
                else math_atan2 (mstar * sin t) (mstar * cos t) * (180.0 / PI)) = h).
  { destruct Hch as [[Hcpos Hh] | [Ec0 Eh0]].
    2:{ assert (E0 : mstar = 0) by (unfold mstar; rewrite (Hln0 Ec0); lra).
        rewrite E0, !Rmult_0_l, math_atan2_0, Rmult_0_l, Eh0.
        destruct (Rlt_dec 0 0.0); lra. }
    assert (Hms' : 0 < mstar) by (unfold mstar; pose proof (Hln' Hcpos); lra).
    clear Hms. rename Hms' into Hms.
    assert (Et : t * (180.0 / PI) = h).
    { unfold t, Rdiv. replace 180.0 with 180 by lra. field. lra. }
    assert (Ht : 0 <= t < 2 * PI).
    { unfold t. split.
      - apply Rmult_le_pos; [apply Rmult_le_pos; lra | lra].
      - apply Rmult_lt_reg_r with (180.0 / PI).
        + apply Rmult_lt_0_compat; [lra | apply Rinv_0_lt_compat; exact Hpi].
        + fold t. rewrite Et. replace (2 * PI * (180.0 / PI)) with 360; [lra |].
          unfold Rdiv. replace 180.0 with 180 by lra. field. lra. }
    destruct (Rle_dec t PI) as [Hle | Hgt].
    - rewrite (math_atan2_polar mstar t Hms) by lra. rewrite Et.
      destruct (Rlt_dec h 0.0); lra.
    - destruct (sin_cos_minus_2PI t) as [Es Ec].
      rewrite <- Es, <- Ec.
      rewrite (math_atan2_polar mstar (t - 2 * PI) Hms) by lra.
      assert (E2 : (t - 2 * PI) * (180.0 / PI) = h - 360).
      { rewrite <- Et. unfold Rdiv. replace 180.0 with 180 by lra. field. lra. }
      rewrite E2. destruct (Rlt_dec (h - 360) 0.0); lra. }
  rewrite Eh.
  assert (Ej : jstar / (1 - (jstar - 100) * 0.007) = j).
  { rewrite Ejs. replace (1.0 + 100.0 * 0.007) with 1.7 by lra.
    replace (1.0 + 0.007 * j) with (1 + 0.007 * j) in * by lra.
    replace 0.007 with (7 / 1000) in * by lra. replace 1.7 with (17 / 10) by lra.
    field. split; lra. }
  assert (Hd2 : 1 - (jstar - 100) * 0.007 <> 0).
  { intros E. rewrite Ejs in E.
    replace (1.0 + 100.0 * 0.007) with 1.7 in E by lra.
    assert (Hpos : 0 < 1.0 + 0.007 * j) by lra.
    assert (E' : (1 - (1.7 * j / (1.0 + 0.007 * j) - 100) * 0.007) * (1.0 + 0.007 * j) = 1.7).
    { unfold Rdiv.
      replace ((1 - (1.7 * j * / (1.0 + 0.007 * j) - 100) * 0.007) * (1.0 + 0.007 * j))
        with (1.7 * (1.0 + 0.007 * j) - 0.0119 * j * (/ (1.0 + 0.007 * j) * (1.0 + 0.007 * j)))
        by lra.
      rewrite Rinv_l by lra. lra. }
    rewrite E in E'. lra. }
  rewrite py_div_ok by exact Hd2. run. rewrite Ej. exact H0.
Qed.

Lemma fromJch_returns (j c h : R) (vc : Snake.ViewingConditions.t) :
  0 < j -> 0 <= c ->
  0 < Snake.ViewingConditions.c vc -> 0 < Snake.ViewingConditions.aw vc ->
  0 <= Snake.ViewingConditions.fLRoot vc ->
  exists cam, Snake.cam16.fromJch_in_viewing_conditions j c h vc = Ok cam.
Proof.
  intros Hj Hc Hvc Haw Hfl.
  unfold Snake.cam16.fromJch_in_viewing_conditions. cbv zeta.
  rewrite py_div_ok by lra. run.
  assert (Hs : 0 < sqrt (j / 100.0)) by (apply sqrt_lt_R0; lra).
  unfold math_sqrt at 1 2.
  destruct (Rlt_dec (j / 100.0) 0) as [Hneg |]; [lra |]. run.
  rewrite py_div_ok by lra. run.
  rewrite py_div_ok by lra. run.
  assert (Hs0 : 0 <= c / sqrt (j / 100.0) * Snake.ViewingConditions.c vc
                     / (Snake.ViewingConditions.aw vc + 4.0)).
  { apply Rmult_le_pos; [apply Rmult_le_pos; [apply Rmult_le_pos |] |]; try lra.
    - left. apply Rinv_0_lt_compat, Hs.
    - left. apply Rinv_0_lt_compat. lra. }
  unfold math_sqrt at 1.
  destruct Rlt_dec as [Hneg |]; [lra |]. run.
  rewrite py_div_ok by lra. run.
  assert (Hm : 0 <= c * Snake.ViewingConditions.fLRoot vc) by (apply Rmult_le_pos; lra).
  unfold math_log. destruct Rle_dec as [Hneg |]; [lra |]. run.
  eexists. reflexivity.
Qed.

(** From J, C, h to CAM16-UCS and back.  For [j > 0], [c > 0], a hue in
    [[0, 360)] and viewing conditions with positive [c], [aw] and [fLRoot],
    [fromJch_in_viewing_conditions] returns a CAM16 value, and
    [fromUcs_in_viewing_conditions] applied to its [jstar], [astar] and
    [bstar] returns the same value (floats read as real numbers). *)
Theorem ucs_round_trip (j c h : R) (vc : Snake.ViewingConditions.t) :
  0 < j -> 0 < c -> 0 <= h < 360 ->
  0 < Snake.ViewingConditions.c vc -> 0 < Snake.ViewingConditions.aw vc ->
  0 < Snake.ViewingConditions.fLRoot vc ->
  exists cam,
    Snake.cam16.fromJch_in_viewing_conditions j c h vc = Ok cam /\
    Snake.cam16.fromUcs_in_viewing_conditions
      (Snake.cam16.jstar cam) (Snake.cam16.astar cam) (Snake.cam16.bstar cam) vc
    = Ok cam.
Proof.
  intros Hj Hc Hh Hvc Haw Hfl.
  destruct (fromJch_returns j c h vc) as [cam Hcam]; try lra.
  exists cam. split; [exact Hcam |].
  apply (fromUcs_of_fromJch j c h); [assumption | left; split; assumption | assumption].
Qed.

Lemma ucs_round_trip_witness :
  exists cam,
    Snake.cam16.fromJch_in_viewing_conditions 50 30 200 unit_conditions = Ok cam /\
    Snake.cam16.fromUcs_in_viewing_conditions
      (Snake.cam16.jstar cam) (Snake.cam16.astar cam) (Snake.cam16.bstar cam)
      unit_conditions
    = Ok cam.
Proof.
  apply (ucs_round_trip 50 30 200 unit_conditions); simpl; lra.
Defined.
